(** * pgconnect: a shallow embedding of the Go package and its properties

    The package is a thin layer over an external object mapper (gorm) and
    the standard SQL pool.  The embedding follows the three source units:

    - [config.go]: the [Config] record and [DefaultConfig];
    - the connection wrapper ([DB], [New], [Ping], [Close], [AutoMigrate],
      [WithTransaction]);
    - the generic [Repository] and its nine methods.

    The mapper is not part of the package: it is an interface ([Mapper])
    whose operations the package calls.  Go pointers to the package's own
    structs live in an explicit store, a nil or dangling dereference is a
    panic, and [int] is a 64-bit two's complement integer. *)

From Stdlib Require Import ZArith String Ascii List Lia.
From stdpp Require Import base list strings.

Local Open Scope Z_scope.
Local Open Scope string_scope.
Local Open Scope list_scope.

(** ** Go base types *)

(** [int] on the 64-bit targets: arithmetic wraps around silently. *)
Module goint.
Definition bits : Z := 64.
Definition min_int : Z := - 2 ^ (bits - 1).
Definition max_int : Z := 2 ^ (bits - 1) - 1.
Definition in_range (z : Z) : Prop := min_int <= z <= max_int.
Definition wrap (z : Z) : Z := (z - min_int) mod 2 ^ bits + min_int.
Definition sub (a b : Z) : Z := wrap (a - b).
Definition mul (a b : Z) : Z := wrap (a * b).
End goint.

(** Types the caller's pointers point to: an entity [T], a slice [[]T],
    the [int64] that receives a count. *)
Inductive gotype :=
| TEntity (name : string)
| TSlice (elem : gotype)
| TInt64.

(** A Go pointer, as an address in the store it points into; [None] is
    nil. *)
Definition ptr := option nat.

(** [interface{}] values handed to the mapper.  [vnil] is the nil
    interface; [vptr] is a typed pointer (to a caller's variable, or to one
    of the package's structs), which is not the nil interface even when the
    pointer is nil; [vzero] is the address of a fresh zero value
    ([var model T; &model]). *)
Inductive value :=
| vnil
| vstring (s : string)
| vint (n : Z)
| vptr (ty : gotype) (p : ptr)
| vzero (ty : gotype).

Definition is_nil (v : value) : bool :=
  match v with vnil => true | _ => false end.

(** [error] values: an error produced by the mapper or the driver, or an
    error built by [fmt.Errorf] with the [%w] verb, which keeps the cause. *)
Inductive error :=
| errorString (s : string)
| wrapError (msg : string) (err : error).

Definition Error_text (e : error) : string :=
  match e with
  | errorString s => s
  | wrapError msg _ => msg
  end.

Definition Unwrap (e : error) : option error :=
  match e with
  | errorString _ => None
  | wrapError _ err => Some err
  end.

Fixpoint error_depth (e : error) : nat :=
  match e with
  | errorString _ => O
  | wrapError _ err => S (error_depth err)
  end.

(** ** The fragment of package fmt the source uses *)
Module fmt.

(** Verbs that consume one operand and print it as text. *)
Definition is_text_verb (c : ascii) : bool :=
  (Ascii.eqb c "s" || Ascii.eqb c "v" || Ascii.eqb c "w")%bool.

(** [format] walks the format string; [%s], [%v] and [%w] print the next
    operand, [%%] prints a percent sign, a verb with no operand left
    prints [%!s(MISSING)] as Go does.  Other verbs are copied through:
    the package uses none. *)
Fixpoint format (f : string) (args : list string) : string :=
  match f with
  | EmptyString => EmptyString
  | String c rest =>
      if Ascii.eqb c "%" then
        match rest with
        | EmptyString => "%!(NOVERB)"
        | String v rest' =>
            if Ascii.eqb v "%" then String "%" (format rest' args)
            else if is_text_verb v then
              match args with
              | a :: args' => a +:+ format rest' args'
              | [] => "%!" +:+ String v ("(MISSING)" +:+ format rest' [])
              end
            else String c (String v (format rest' args))
        end
      else String c (format rest args)
  end.

Definition Sprintf (f : string) (args : list string) : string :=
  format f args.

(** [fmt.Errorf] with one error operand under [%w]: the text is the
    formatted message, the operand stays reachable through [Unwrap]. *)
Definition Errorf (f : string) (err : error) : error :=
  wrapError (format f [Error_text err]) err.

End fmt.

(** ** gorm's logger levels and time.Hour *)
Module logger.
Inductive LogLevel := Silent | Error | Warn | Info.
(** [logger.Default.LogMode(level)]. *)
Inductive Interface := Default_LogMode (level : LogLevel).
Definition level_of (l : Interface) : LogLevel :=
  match l with Default_LogMode lv => lv end.
End logger.

Module time.
(** A [Duration] counts nanoseconds. *)
Definition Nanosecond : Z := 1.
Definition Second : Z := 1000000000 * Nanosecond.
Definition Minute : Z := 60 * Second.
Definition Hour : Z := 60 * Minute.
End time.

(** ** config.go *)

Record Config := {
  Host : string;
  Port : string;
  User : string;
  Password : string;
  DatabaseName : string;
  SSLMode : string;
  TimeZone : string;
  MaxIdleConns : Z;
  MaxOpenConns : Z;
  LogLevel : logger.LogLevel
}.

Definition DefaultConfig : Config := {|
  Host := "localhost";
  Port := "5432";
  User := "postgres";
  Password := "postgres";
  DatabaseName := "postgres";
  SSLMode := "disable";
  TimeZone := "UTC";
  MaxIdleConns := 10;
  MaxOpenConns := 100;
  LogLevel := logger.Silent
|}.

(** The [dsn] local of [New]. *)
Definition dsn_of (cfg : Config) : string :=
  fmt.Sprintf
    "host=%s port=%s user=%s password=%s dbname=%s sslmode=%s TimeZone=%s"
    [Host cfg; Port cfg; User cfg; Password cfg; DatabaseName cfg;
     SSLMode cfg; TimeZone cfg].

Arguments dsn_of : simpl never.
Arguments fmt.Errorf : simpl never.


(** ** The external mapper

    Everything below [Mapper] is outside the package: gorm, the postgres
    driver and database/sql.  The class lists exactly the calls the source
    makes.  [Env] is whatever those calls read and change (the database, the
    pool, the caller's variables they fill in); every call runs in it.

    The class describes calls that return.  A call that panics inside the
    mapper (gorm's [Count] given a nil [*int64], say) has no counterpart
    here: a [Panic] in this development is always one of the package's own
    dereferences, and a result [Ret] reads: the call returns, provided the
    mapper calls it makes do. *)

Inductive Dialector := postgres_Open (dsn : string).

Record gorm_Config := { Logger : logger.Interface }.

Class Mapper := {
  Env : Type;
  gormDB : Type;                 (* a non-nil *gorm.DB *)
  sqlDB : Type;                  (* a non-nil *sql.DB *)
  (* gorm.Open and the pool *)
  gorm_Open : Dialector -> gorm_Config -> Env -> (gormDB * option error) * Env;
  gorm_DB : gormDB -> Env -> (sqlDB * option error) * Env;
  sql_SetMaxIdleConns : sqlDB -> Z -> Env -> unit * Env;
  sql_SetMaxOpenConns : sqlDB -> Z -> Env -> unit * Env;
  sql_SetConnMaxLifetime : sqlDB -> Z -> Env -> unit * Env;
  sql_Ping : sqlDB -> Env -> option error * Env;
  sql_Close : sqlDB -> Env -> option error * Env;
  (* schema and transactions *)
  gorm_AutoMigrate : gormDB -> list value -> Env -> option error * Env;
  gorm_Transaction :
    gormDB -> (gormDB -> Env -> option error * Env) -> Env -> option error * Env;
  (* chain methods *)
  gorm_Where : gormDB -> value -> list value -> Env -> gormDB * Env;
  gorm_Offset : gormDB -> Z -> Env -> gormDB * Env;
  gorm_Limit : gormDB -> Z -> Env -> gormDB * Env;
  gorm_Model : gormDB -> value -> Env -> gormDB * Env;
  (* finisher methods *)
  gorm_Create : gormDB -> value -> Env -> gormDB * Env;
  gorm_First : gormDB -> value -> list value -> Env -> gormDB * Env;
  gorm_Find : gormDB -> value -> list value -> Env -> gormDB * Env;
  gorm_Save : gormDB -> value -> Env -> gormDB * Env;
  gorm_Delete : gormDB -> value -> list value -> Env -> gormDB * Env;
  gorm_Count : gormDB -> value -> Env -> gormDB * Env;
  (* the Error field of the handle a call returns *)
  gorm_Error : gormDB -> option error
}.

(** ** The package's own state *)

(** Outcome of a call: it returns, or it panics on a nil dereference. *)
Inductive Res (A : Type) :=
| Ret (a : A)
| Panic.
Arguments Ret {A} a.
Arguments Panic {A}.

Section Package.
Context `{M : Mapper}.

(** [type DB struct { *gorm.DB }] *)
Record DB := { DB_DB : option gormDB }.

(** [type Repository[T any] struct { db *DB }]; the type argument is
    kept as a tag. *)
Record Repository := { T : gotype; db : ptr }.

Record State := {
  dbs : list DB;               (* allocated DB structs, by address *)
  repos : list Repository;     (* allocated Repository structs *)
  env : Env
}.

Definition Go (A : Type) : Type := State -> Res A * State.

Definition ret {A} (a : A) : Go A := fun s => (Ret a, s).

Definition bind {A B} (m : Go A) (k : A -> Go B) : Go B :=
  fun s =>
    match m s with
    | (Ret a, s') => k a s'
    | (Panic, s') => (Panic, s')
    end.

Definition panic {A} : Go A := fun s => (Panic, s).

Definition with_env (s : State) (e : Env) : State :=
  {| dbs := dbs s; repos := repos s; env := e |}.

(** Run a mapper call on the environment component. *)
Definition extern {A} (c : Env -> A * Env) : Go A :=
  fun s => let '(a, e) := c (env s) in (Ret a, with_env s e).

(** [&DB{...}] and [&Repository[T]{...}]: a fresh address. *)
Definition new_DB (d : DB) : Go ptr :=
  fun s =>
    (Ret (Some (length (dbs s))),
     {| dbs := dbs s ++ [d]; repos := repos s; env := env s |}).

Definition new_Repository (r : Repository) : Go ptr :=
  fun s =>
    (Ret (Some (length (repos s))),
     {| dbs := dbs s; repos := repos s ++ [r]; env := env s |}).

Definition load_DB (p : ptr) : Go DB :=
  fun s =>
    match p with
    | Some a => match dbs s !! a with Some d => (Ret d, s) | None => (Panic, s) end
    | None => (Panic, s)
    end.

Definition load_Repository (p : ptr) : Go Repository :=
  fun s =>
    match p with
    | Some a => match repos s !! a with Some r => (Ret r, s) | None => (Panic, s) end
    | None => (Panic, s)
    end.

(** The embedded [*gorm.DB] as the receiver of a mapper method.  With a nil
    handle Go still enters the method, on a nil receiver, and the panic is
    raised inside the mapper; the model has no mapper call to enter then and
    gives the panic here.  No property below rests on that case. *)
Definition embedded (d : DB) : Go gormDB :=
  match DB_DB d with
  | Some g => ret g
  | None => panic
  end.

(** [r] points to a repository of [ty] whose [db] field points to a
    [DB] around the handle [g]. *)
Definition repo_at (s : State) (r : nat) (ty : gotype) (g : gormDB) : Prop :=
  exists d,
    repos s !! r = Some {| T := ty; db := Some d |} /\
    dbs s !! d = Some {| DB_DB := Some g |}.

End Package.

Declare Scope go_scope.
Delimit Scope go_scope with go.
Notation "x <- c ;; k" := (bind c (fun x => k))
  (at level 100, c at next level, right associativity) : go_scope.

(** ** repository.go: the generic repository *)

Section Code.
Context `{M : Mapper}.
Local Open Scope go_scope.

(** [NewRepository[T](db)] *)
Definition NewRepository (ty : gotype) (db0 : ptr) : Go ptr :=
  new_Repository {| T := ty; db := db0 |}.

(** The receiver expression [r.db] followed by a promoted method: [r],
    then [r.db], then the embedded handle are dereferenced. *)
Definition r_db (r : ptr) : Go (Repository * gormDB) :=
  R <- load_Repository r ;;
  d <- load_DB (db R) ;;
  g <- embedded d ;;
  ret (R, g).

Definition Create (r : ptr) (model : ptr) : Go (option error) :=
  x <- r_db r ;;
  let '(R, g) := x in
  tx <- extern (gorm_Create g (vptr (T R) model)) ;;
  ret (gorm_Error tx).

Definition FindByID (r : ptr) (id : value) (result : ptr) : Go (option error) :=
  x <- r_db r ;;
  let '(R, g) := x in
  tx <- extern (gorm_First g (vptr (T R) result) [id]) ;;
  ret (gorm_Error tx).

Definition FindAll (r : ptr) (result : ptr) : Go (option error) :=
  x <- r_db r ;;
  let '(R, g) := x in
  tx <- extern (gorm_Find g (vptr (TSlice (T R)) result) []) ;;
  ret (gorm_Error tx).

Definition FindWhere (r : ptr) (result : ptr) (query : value) (args : list value)
  : Go (option error) :=
  x <- r_db r ;;
  let '(R, g) := x in
  w <- extern (gorm_Where g query args) ;;
  tx <- extern (gorm_Find w (vptr (TSlice (T R)) result) []) ;;
  ret (gorm_Error tx).

Definition FindOne (r : ptr) (result : ptr) (query : value) (args : list value)
  : Go (option error) :=
  x <- r_db r ;;
  let '(R, g) := x in
  w <- extern (gorm_Where g query args) ;;
  tx <- extern (gorm_First w (vptr (T R) result) []) ;;
  ret (gorm_Error tx).

Definition Update (r : ptr) (model : ptr) : Go (option error) :=
  x <- r_db r ;;
  let '(R, g) := x in
  tx <- extern (gorm_Save g (vptr (T R) model)) ;;
  ret (gorm_Error tx).

Definition Delete (r : ptr) (model : ptr) : Go (option error) :=
  x <- r_db r ;;
  let '(R, g) := x in
  tx <- extern (gorm_Delete g (vptr (T R) model) []) ;;
  ret (gorm_Error tx).

(** [Count]: the local [db] starts as [r.db]; with a non-nil [query] it
    is reassigned to a newly allocated [DB] around the filtered handle.
    The field [r.db] is never assigned. *)
Definition Count (r : ptr) (count : ptr) (query : value) (args : list value)
  : Go (option error) :=
  R <- load_Repository r ;;
  let db0 := db R in
  db1 <- (if negb (is_nil query) then
            d <- load_DB db0 ;;
            g <- embedded d ;;
            w <- extern (gorm_Where g query args) ;;
            new_DB {| DB_DB := Some w |}
          else ret db0) ;;
  d <- load_DB db1 ;;
  g <- embedded d ;;
  m <- extern (gorm_Model g (vzero (T R))) ;;
  tx <- extern (gorm_Count m (vptr TInt64 count)) ;;
  ret (gorm_Error tx).

Definition Paginate (r : ptr) (result : ptr) (page pageSize : Z)
  : Go (option error) :=
  let offset := goint.mul (goint.sub page 1) pageSize in
  x <- r_db r ;;
  let '(R, g) := x in
  o <- extern (gorm_Offset g offset) ;;
  l <- extern (gorm_Limit o pageSize) ;;
  tx <- extern (gorm_Find l (vptr (TSlice (T R)) result) []) ;;
  ret (gorm_Error tx).

(** ** The connection wrapper *)

Definition New (cfg : Config) : Go (ptr * option error) :=
  let dsn := dsn_of cfg in
  let gormConfig := {| Logger := logger.Default_LogMode (LogLevel cfg) |} in
  x <- extern (gorm_Open (postgres_Open dsn) gormConfig) ;;
  let '(gdb, err) := x in
  match err with
  | Some e => ret (None, Some (fmt.Errorf "failed to connect to database: %w" e))
  | None =>
      y <- extern (gorm_DB gdb) ;;
      let '(sqldb, err) := y in
      match err with
      | Some e =>
          ret (None, Some (fmt.Errorf "failed to get database instance: %w" e))
      | None =>
          _ <- extern (sql_SetMaxIdleConns sqldb (MaxIdleConns cfg)) ;;
          _ <- extern (sql_SetMaxOpenConns sqldb (MaxOpenConns cfg)) ;;
          _ <- extern (sql_SetConnMaxLifetime sqldb time.Hour) ;;
          p <- new_DB {| DB_DB := Some gdb |} ;;
          ret (p, None)
      end
  end.

Definition Ping (db0 : ptr) : Go (option error) :=
  d <- load_DB db0 ;;
  g <- embedded d ;;
  y <- extern (gorm_DB g) ;;
  let '(sqldb, err) := y in
  match err with
  | Some e => ret (Some e)
  | None => extern (sql_Ping sqldb)
  end.

Definition Close (db0 : ptr) : Go (option error) :=
  d <- load_DB db0 ;;
  g <- embedded d ;;
  y <- extern (gorm_DB g) ;;
  let '(sqldb, err) := y in
  match err with
  | Some e => ret (Some e)
  | None => extern (sql_Close sqldb)
  end.

Definition AutoMigrate (db0 : ptr) (models : list value) : Go (option error) :=
  d <- load_DB db0 ;;
  g <- embedded d ;;
  extern (gorm_AutoMigrate g models).

(** The callback talks to the mapper through the handle it is given. *)
Definition WithTransaction (db0 : ptr)
    (fn : gormDB -> Env -> option error * Env) : Go (option error) :=
  d <- load_DB db0 ;;
  g <- embedded d ;;
  extern (gorm_Transaction g fn).

(** ** The method set of [Repository]

    One constructor per method declared on [*Repository[T]], with its
    arguments; [invoke] is the method call [r.m(args)]. *)
Inductive RepositoryCall :=
| call_Create (model : ptr)
| call_FindByID (id : value) (result : ptr)
| call_FindAll (result : ptr)
| call_FindWhere (result : ptr) (query : value) (args : list value)
| call_FindOne (result : ptr) (query : value) (args : list value)
| call_Update (model : ptr)
| call_Delete (model : ptr)
| call_Count (count : ptr) (query : value) (args : list value)
| call_Paginate (result : ptr) (page pageSize : Z).

Definition invoke (r : ptr) (c : RepositoryCall) : Go (option error) :=
  match c with
  | call_Create model => Create r model
  | call_FindByID id result => FindByID r id result
  | call_FindAll result => FindAll r result
  | call_FindWhere result query args => FindWhere r result query args
  | call_FindOne result query args => FindOne r result query args
  | call_Update model => Update r model
  | call_Delete model => Delete r model
  | call_Count count query args => Count r count query args
  | call_Paginate result page pageSize => Paginate r result page pageSize
  end.

End Code.

(** Names of the methods declared on [*Repository[T]]. *)
Inductive method :=
| m_Create | m_FindByID | m_FindAll | m_FindWhere | m_FindOne
| m_Update | m_Delete | m_Count | m_Paginate.

Definition method_name (m : method) : string :=
  match m with
  | m_Create => "Create"
  | m_FindByID => "FindByID"
  | m_FindAll => "FindAll"
  | m_FindWhere => "FindWhere"
  | m_FindOne => "FindOne"
  | m_Update => "Update"
  | m_Delete => "Delete"
  | m_Count => "Count"
  | m_Paginate => "Paginate"
  end.

Definition Repository_methods : list method :=
  [m_Create; m_FindByID; m_FindAll; m_FindWhere; m_FindOne;
   m_Update; m_Delete; m_Count; m_Paginate].

(** Method selection [r.name]: the declared method of that name, if any. *)
Definition select_method (name : string) : option method :=
  List.find (fun m => String.eqb (method_name m) name) Repository_methods.

Definition method_of (c : RepositoryCall) : method :=
  match c with
  | call_Create _ => m_Create
  | call_FindByID _ _ => m_FindByID
  | call_FindAll _ => m_FindAll
  | call_FindWhere _ _ _ => m_FindWhere
  | call_FindOne _ _ _ => m_FindOne
  | call_Update _ => m_Update
  | call_Delete _ => m_Delete
  | call_Count _ _ _ => m_Count
  | call_Paginate _ _ _ => m_Paginate
  end.

(** The operation table of the specification (section 4.3), by name, for
    comparison with [Repository_methods]. *)
Definition spec_operations : list string :=
  ["Create"; "FindByID"; "FindAll"; "FindWhere"; "FindOne"; "Update";
   "Delete"; "DeleteWhere"; "Count"; "Paginate"; "PaginateWhere"].

(** ** A reference mapper

    An instance of [Mapper] that records every call it receives and answers
    each fallible call from a script.  A handle carries what it was opened
    with and the clauses chained on it so far; the data is a log of applied
    writes, with a staging area for the open transaction.  The script
    [oracle] sees the calls made so far, the current one last, and says
    whether the current one fails.

    Handles are values: a chain method returns the handle extended by one
    clause.  That is gorm's behaviour on a root handle, such as [gorm.Open]
    returns, where every chain starts a statement of its own; a handle that
    is itself the result of a chain is extended in place by gorm, which
    this instance does not follow.  What is stated about one call holds for
    any handle; what is stated across calls is stated for root handles.
    The pool settings are recorded as calls only: what database/sql makes
    of the values is not modelled. *)
Module ref.

Inductive Clause :=
| Where (query : value) (args : list value)
| Offset (n : Z)
| Limit (n : Z)
| Model (v : value).

Record handle := {
  h_dialector : Dialector;
  h_config : gorm_Config;
  h_tx : bool;                     (* inside a transaction *)
  h_clauses : list Clause;         (* in chaining order *)
  h_Error : option error
}.

Inductive Event :=
| EvOpen (d : Dialector) (c : gorm_Config)
| EvDB (h : handle)
| EvSetMaxIdleConns (n : Z)
| EvSetMaxOpenConns (n : Z)
| EvSetConnMaxLifetime (d : Z)
| EvPing
| EvClose
| EvAutoMigrate (h : handle) (models : list value)
| EvCreate (h : handle) (v : value)
| EvFirst (h : handle) (dest : value) (conds : list value)
| EvFind (h : handle) (dest : value) (conds : list value)
| EvSave (h : handle) (v : value)
| EvDelete (h : handle) (v : value) (conds : list value)
| EvCount (h : handle) (count : value)
| EvBegin (h : handle)
| EvCommit
| EvRollback.

Record World := {
  calls : list Event;              (* every call received, oldest first *)
  applied : list Event;            (* writes visible to everyone *)
  pending : option (list Event)    (* writes of the open transaction *)
}.

Definition empty : World := {|
  calls := [];
  applied := [];
  pending := None
|}.

Definition pending_writes (e : World) : list Event :=
  match pending e with Some p => p | None => [] end.

(** What a reader outside any transaction sees, and what the open
    transaction sees. *)
Definition committed (e : World) : list Event := applied e.
Definition staged (e : World) : list Event := applied e ++ pending_writes e.

Definition chain (h : handle) (c : Clause) : handle :=
  {| h_dialector := h_dialector h; h_config := h_config h; h_tx := h_tx h;
     h_clauses := h_clauses h ++ [c]; h_Error := h_Error h |}.

Definition with_Error (h : handle) (err : option error) : handle :=
  {| h_dialector := h_dialector h; h_config := h_config h; h_tx := h_tx h;
     h_clauses := h_clauses h; h_Error := err |}.

Definition in_tx (h : handle) : handle :=
  {| h_dialector := h_dialector h; h_config := h_config h; h_tx := true;
     h_clauses := h_clauses h; h_Error := h_Error h |}.

Definition log (ev : Event) (e : World) : World :=
  {| calls := calls e ++ [ev];
     applied := applied e; pending := pending e |}.

Definition write (tx : bool) (ev : Event) (e : World) : World :=
  if tx then
    {| calls := calls e; applied := applied e;
       pending := match pending e with
                  | Some p => Some (p ++ [ev])
                  | None => None
                  end |}
  else
    {| calls := calls e; applied := applied e ++ [ev];
       pending := pending e |}.

Definition tx_begin (h : handle) (e : World) : World :=
  {| calls := calls e ++ [EvBegin h];
     applied := applied e; pending := Some [] |}.

Definition tx_commit (e : World) : World :=
  {| calls := calls e ++ [EvCommit];
     applied := applied e ++ pending_writes e; pending := None |}.

Definition tx_rollback (e : World) : World :=
  {| calls := calls e ++ [EvRollback];
     applied := applied e; pending := None |}.

Section Scripted.
Variable oracle : list Event -> option error.

(** A fallible call: record it, then ask the script. *)
Definition ask (ev : Event) (e : World) : option error * World :=
  let e' := log ev e in (oracle (calls e'), e').

(** A read or a write through handle [h]. *)
Definition finish (writes : bool) (h : handle) (ev : Event) (e : World)
  : handle * World :=
  let '(err, e1) := ask ev e in
  let e2 := if writes then
              match err with
              | None => write (h_tx h) ev e1
              | Some _ => e1
              end
            else e1 in
  (with_Error h err, e2).

Definition Transaction (h : handle)
    (fc : handle -> World -> option error * World) (e : World) : option error * World :=
  let '(r, e1) := fc (in_tx h) (tx_begin h e) in
  (r, match r with None => tx_commit e1 | Some _ => tx_rollback e1 end).

Definition mapper : Mapper := {|
  Env := World;
  gormDB := handle;
  sqlDB := handle;
  gorm_Open d c e :=
    let '(err, e1) := ask (EvOpen d c) e in
    ({| h_dialector := d; h_config := c; h_tx := false;
        h_clauses := []; h_Error := err |}, err, e1);
  gorm_DB h e := let '(err, e1) := ask (EvDB h) e in (h, err, e1);
  sql_SetMaxIdleConns _ n e := (tt, log (EvSetMaxIdleConns n) e);
  sql_SetMaxOpenConns _ n e := (tt, log (EvSetMaxOpenConns n) e);
  sql_SetConnMaxLifetime _ d e := (tt, log (EvSetConnMaxLifetime d) e);
  sql_Ping _ := ask EvPing;
  sql_Close _ := ask EvClose;
  gorm_AutoMigrate h models := ask (EvAutoMigrate h models);
  gorm_Transaction := Transaction;
  gorm_Where h query args e := (chain h (Where query args), e);
  gorm_Offset h n e := (chain h (Offset n), e);
  gorm_Limit h n e := (chain h (Limit n), e);
  gorm_Model h v e := (chain h (Model v), e);
  gorm_Create h v := finish true h (EvCreate h v);
  gorm_First h dest conds := finish false h (EvFirst h dest conds);
  gorm_Find h dest conds := finish false h (EvFind h dest conds);
  gorm_Save h v := finish true h (EvSave h v);
  gorm_Delete h v conds := finish true h (EvDelete h v conds);
  gorm_Count h count := finish false h (EvCount h count);
  gorm_Error := h_Error
|}.
End Scripted.

(** Scripts: nothing fails; the n-th call (from 0) fails with [err]. *)
Definition all_ok : list Event -> option error := fun _ => None.
Definition fail_at (n : nat) (err : error) : list Event -> option error :=
  fun cs => if Nat.eqb (length cs) (S n) then Some err else None.

(** The root handle [gorm.Open] returns for a configuration. *)
Definition opened (cfg : Config) : handle :=
  {| h_dialector := postgres_Open (dsn_of cfg);
     h_config := {| Logger := logger.Default_LogMode (LogLevel cfg) |};
     h_tx := false; h_clauses := []; h_Error := None |}.

(** The [gorm.Open] call [New] makes for a configuration. *)
Definition open_event (cfg : Config) : Event :=
  EvOpen (postgres_Open (dsn_of cfg))
             {| Logger := logger.Default_LogMode (LogLevel cfg) |}.

(** The environment after a [New] that went through: five calls. *)
Definition connected (cfg : Config) (e : World) : World :=
  {| calls :=
       ((((calls e ++ [open_event cfg]) ++ [EvDB (opened cfg)])
           ++ [EvSetMaxIdleConns (MaxIdleConns cfg)])
          ++ [EvSetMaxOpenConns (MaxOpenConns cfg)])
         ++ [EvSetConnMaxLifetime time.Hour];
     applied := applied e;
     pending := pending e |}.

(** Nothing allocated, nothing called yet. *)
Definition init (oracle : list Event -> option error) : @State (mapper oracle) :=
  @Build_State (mapper oracle) [] [] empty.

End ref.

(** The connection string as the specification words it (section 6):
    seven [key=value] pairs, in this order, separated by one space.  For
    comparison with [dsn_of]. *)
Definition spec_pairs (cfg : Config) : list (string * string) :=
  [("host", Host cfg); ("port", Port cfg); ("user", User cfg);
   ("password", Password cfg); ("dbname", DatabaseName cfg);
   ("sslmode", SSLMode cfg); ("TimeZone", TimeZone cfg)].

Definition spec_connection_string (cfg : Config) : string :=
  String.concat " " (map (fun kv => fst kv +:+ "=" +:+ snd kv) (spec_pairs cfg)).

(** A run of method calls on one receiver, each from the state the
    previous one left. *)
Fixpoint invoke_all `{M : Mapper} (r : ptr) (cs : list RepositoryCall) (s : State)
  : State :=
  match cs with
  | [] => s
  | c :: cs' => invoke_all r cs' (snd (invoke r c s))
  end.

(** [frame s s']: from [s] to [s'] no [Repository] struct was written or
    allocated, and no [DB] struct was written; [DB] structs may have been
    allocated after the existing ones. *)
Definition frame `{M : Mapper} (s s' : State) : Prop :=
  repos s' = repos s /\ exists fresh, dbs s' = dbs s ++ fresh.

Definition keeps `{M : Mapper} {A} (m : Go A) : Prop :=
  forall s, frame s (snd (m s)).

(** Modelled from the spec: the contract of the mapper's [Transaction]
    (gorm's, outside the package), as section 4.2 and the README word it:
    the callback runs on a transactional handle inside a scope that was
    begun; a nil result commits, an error rolls back, and the callback's
    result is the result.  [committed] is what a reader outside the scope
    sees and [staged] what the scope itself sees; a commit publishes the
    staged view, beginning and rolling back publish nothing. *)
Record TransactionContract `{M : Mapper} (View : Type) := {
  tx_handle : gormDB -> gormDB;
  tx_begin : gormDB -> Env -> Env;
  tx_commit : Env -> Env;
  tx_rollback : Env -> Env;
  committed : Env -> View;
  staged : Env -> View;
  contract_run : forall g fc e,
    gorm_Transaction g fc e =
    let '(r, e1) := fc (tx_handle g) (tx_begin g e) in
    (r, match r with None => tx_commit e1 | Some _ => tx_rollback e1 end);
  contract_begin : forall g e, committed (tx_begin g e) = committed e;
  contract_commit : forall e, committed (tx_commit e) = staged e;
  contract_rollback : forall e, committed (tx_rollback e) = committed e
}.
Arguments tx_handle {M View} _ _.
Arguments tx_begin {M View} _ _ _.
Arguments tx_commit {M View} _ _.
Arguments tx_rollback {M View} _ _.
Arguments committed {M View} _ _.
Arguments staged {M View} _ _.

(** The reference mapper honours the contract. *)
Definition ref_contract (oracle : list ref.Event -> option error)
  : @TransactionContract (ref.mapper oracle) (list ref.Event) :=
  @Build_TransactionContract (ref.mapper oracle) (list ref.Event)
    ref.in_tx ref.tx_begin ref.tx_commit ref.tx_rollback ref.committed ref.staged
    (fun _ _ _ => eq_refl) (fun _ _ => eq_refl) (fun _ => eq_refl) (fun _ => eq_refl).

(** A callback for the examples: insert one record through the handle it is
    given, then fail or not. *)
Definition insert_then (result : option error) (oracle : list ref.Event -> option error)
    (tx : ref.handle) (e : ref.World) : option error * ref.World :=
  let '(_, e1) :=
    @gorm_Create (ref.mapper oracle) tx (vptr (TEntity "User") (Some 1%nat)) e in
  (result, e1).

(** A state with one connection opened from the defaults and one
    repository of [User] on it. *)
Definition one_repo (oracle : list ref.Event -> option error)
  : @State (ref.mapper oracle) :=
  @Build_State (ref.mapper oracle)
    [@Build_DB (ref.mapper oracle) (Some (ref.opened DefaultConfig))]
    [@Build_Repository (TEntity "User") (Some 0%nat)]
    ref.empty.

(** The mapper call each method ends in, read off the method bodies: the
    finisher, the handle it runs on (the stored handle [g] with the clauses
    the method chains) and its operands. *)
Definition event_of (g : ref.handle) (ty : gotype) (c : RepositoryCall) : ref.Event :=
  match c with
  | call_Create model => ref.EvCreate g (vptr ty model)
  | call_FindByID id result => ref.EvFirst g (vptr ty result) [id]
  | call_FindAll result => ref.EvFind g (vptr (TSlice ty) result) []
  | call_FindWhere result query args =>
      ref.EvFind (ref.chain g (ref.Where query args)) (vptr (TSlice ty) result) []
  | call_FindOne result query args =>
      ref.EvFirst (ref.chain g (ref.Where query args)) (vptr ty result) []
  | call_Update model => ref.EvSave g (vptr ty model)
  | call_Delete model => ref.EvDelete g (vptr ty model) []
  | call_Count count query args =>
      ref.EvCount
        (ref.chain (if is_nil query then g else ref.chain g (ref.Where query args))
                   (ref.Model (vzero ty)))
        (vptr TInt64 count)
  | call_Paginate result page pageSize =>
      ref.EvFind
        (ref.chain (ref.chain g (ref.Offset (goint.mul (goint.sub page 1) pageSize)))
                   (ref.Limit pageSize))
        (vptr (TSlice ty) result) []
  end.

(** A space anywhere in a string. *)
Fixpoint has_space (s : string) : bool :=
  match s with
  | EmptyString => false
  | String c rest => (Ascii.eqb c " " || has_space rest)%bool
  end.

(** The six values that are followed by another pair in the connection
    string are free of spaces. *)
Definition values_without_space (cfg : Config) : Prop :=
  has_space (Host cfg) = false /\
  has_space (Port cfg) = false /\
  has_space (User cfg) = false /\
  has_space (Password cfg) = false /\
  has_space (DatabaseName cfg) = false /\
  has_space (SSLMode cfg) = false.

(** Calls that allocate a [DB]: [Count] with a filter. *)
Definition allocates (c : RepositoryCall) : bool :=
  match c with
  | call_Count _ query _ => negb (is_nil query)
  | _ => false
  end.

(** * Properties *)

(** ** Configuration *)

(** C2. [DefaultConfig()] returns the documented defaults, field by field:
    host "localhost", port "5432", user, password and database "postgres",
    SSL mode "disable", time zone "UTC", 10 idle and 100 open connections,
    and the silent log level. *)
Theorem DefaultConfig_defaults :
  Host DefaultConfig = "localhost" /\
  Port DefaultConfig = "5432" /\
  User DefaultConfig = "postgres" /\
  Password DefaultConfig = "postgres" /\
  DatabaseName DefaultConfig = "postgres" /\
  SSLMode DefaultConfig = "disable" /\
  TimeZone DefaultConfig = "UTC" /\
  MaxIdleConns DefaultConfig = 10 /\
  MaxOpenConns DefaultConfig = 100 /\
  LogLevel DefaultConfig = logger.Silent.
Proof. repeat split. Qed.

(** ** Go's [int] *)

Lemma wrap_in_range (z : Z) : goint.in_range (goint.wrap z).
Proof.
  unfold goint.in_range, goint.wrap, goint.min_int, goint.max_int, goint.bits.
  pose proof (Z.mod_pos_bound (z - - 2 ^ (64 - 1)) (2 ^ 64) ltac:(lia)).
  change (2 ^ (64 - 1)) with 9223372036854775808 in *.
  change (2 ^ 64) with 18446744073709551616 in *. lia.
Qed.

Lemma wrap_id (z : Z) : goint.in_range z -> goint.wrap z = z.
Proof.
  unfold goint.in_range, goint.wrap, goint.min_int, goint.max_int, goint.bits.
  change (2 ^ (64 - 1)) with 9223372036854775808.
  change (2 ^ 64) with 18446744073709551616.
  intros H. rewrite Z.mod_small; lia.
Qed.

(** Wrapping is congruent: an inner wrap under a product disappears. *)
Lemma wrap_mul_l (a b : Z) : goint.wrap (goint.wrap a * b) = goint.wrap (a * b).
Proof.
  unfold goint.wrap, goint.min_int, goint.bits.
  change (2 ^ (64 - 1)) with 9223372036854775808.
  change (2 ^ 64) with 18446744073709551616.
  set (m := 18446744073709551616). set (h := 9223372036854775808).
  f_equal.
  rewrite (Z.mod_eq (a - - h) m) by (subst m; lia).
  replace (((a - - h - m * ((a - - h) / m)) + - h) * b - - h)
    with ((a * b - - h) + (- ((a - - h) / m) * b) * m) by ring.
  apply Z.mod_add. subst m; lia.
Qed.

Lemma paginate_offset (page pageSize : Z) :
  goint.mul (goint.sub page 1) pageSize = goint.wrap ((page - 1) * pageSize).
Proof. unfold goint.mul, goint.sub. apply wrap_mul_l. Qed.

(** ** The monad of the package: equations used throughout *)

Section GoFacts.
Context `{M : Mapper}.

Lemma bind_Ret {A B} (m : Go A) (k : A -> Go B) s a s' :
  m s = (Ret a, s') -> bind m k s = k a s'.
Proof. intros E. unfold bind. now rewrite E. Qed.

Lemma extern_eq {A} (c : Env -> A * Env) s :
  extern c s = (Ret (fst (c (env s))), with_env s (snd (c (env s)))).
Proof. unfold extern. now destruct (c (env s)). Qed.

Lemma load_Repository_eq s r R :
  repos s !! r = Some R -> load_Repository (Some r) s = (Ret R, s).
Proof. intros E. unfold load_Repository. now rewrite E. Qed.

Lemma load_DB_eq s d D :
  dbs s !! d = Some D -> load_DB (Some d) s = (Ret D, s).
Proof. intros E. unfold load_DB. now rewrite E. Qed.

Lemma r_db_eq s r ty g :
  repo_at s r ty g ->
  exists d, r_db (Some r) s = (Ret ({| T := ty; db := Some d |}, g), s).
Proof.
  intros (d & Hr & Hd). exists d. unfold r_db.
  rewrite (bind_Ret _ _ _ _ _ (load_Repository_eq _ _ _ Hr)). simpl.
  rewrite (bind_Ret _ _ _ _ _ (load_DB_eq _ _ _ Hd)). reflexivity.
Qed.

(** [Paginate], for every mapper: [Offset], [Limit] and [Find] are called
    in this order, each on the handle the previous one returned, and the
    [Error] of what [Find] returned is the result. *)
Lemma Paginate_calls s r ty g result page pageSize :
  repo_at s r ty g ->
  Paginate (Some r) result page pageSize s =
  let '(o, e1) := gorm_Offset g (goint.wrap ((page - 1) * pageSize)) (env s) in
  let '(l, e2) := gorm_Limit o pageSize e1 in
  let '(tx, e3) := gorm_Find l (vptr (TSlice ty) result) [] e2 in
  (Ret (gorm_Error tx), with_env s e3).
Proof.
  intros Hr. destruct (r_db_eq _ _ _ _ Hr) as (d & Hd).
  unfold Paginate. rewrite (bind_Ret _ _ _ _ _ Hd), paginate_offset.
  unfold bind, extern, ret, with_env. cbn.
  destruct (gorm_Offset _ _ _) as [o e1]. cbn.
  destruct (gorm_Limit _ _ _) as [l e2]. cbn.
  destruct (gorm_Find _ _ _ _) as [tx e3]. reflexivity.
Qed.

(** [Count], for every mapper: without a filter [Model] and [Count] run on
    the stored handle; with one, [Where] runs first and its handle is put in
    a newly allocated [DB]. *)
Lemma Count_calls s r ty g count query args :
  repo_at s r ty g ->
  Count (Some r) count query args s =
  if is_nil query then
    let '(m, e1) := gorm_Model g (vzero ty) (env s) in
    let '(tx, e2) := gorm_Count m (vptr TInt64 count) e1 in
    (Ret (gorm_Error tx), with_env s e2)
  else
    let '(w, e0) := gorm_Where g query args (env s) in
    let '(m, e1) := gorm_Model w (vzero ty) e0 in
    let '(tx, e2) := gorm_Count m (vptr TInt64 count) e1 in
    (Ret (gorm_Error tx),
     {| dbs := dbs s ++ [{| DB_DB := Some w |}]; repos := repos s; env := e2 |}).
Proof.
  intros (d & Hr & Hd).
  unfold Count. rewrite (bind_Ret _ _ _ _ _ (load_Repository_eq _ _ _ Hr)).
  cbn [db T].
  destruct (is_nil query); cbn [negb].
  - unfold bind at 1. unfold ret at 1.
    rewrite (bind_Ret _ _ _ _ _ (load_DB_eq _ _ _ Hd)).
    unfold bind, extern, ret, embedded, with_env. cbn.
    destruct (gorm_Model _ _ _) as [m e1]. cbn.
    destruct (gorm_Count _ _ _) as [tx e2]. reflexivity.
  - unfold bind at 1.
    rewrite (bind_Ret _ _ _ _ _ (load_DB_eq _ _ _ Hd)).
    unfold embedded at 1. cbn [DB_DB]. unfold bind at 1, ret at 1.
    unfold bind at 1, extern at 1.
    destruct (gorm_Where g query args (env s)) as [w e0].
    unfold new_DB. cbn [dbs with_env].
    assert (Hnew : (dbs s ++ [{| DB_DB := Some w |}]) !! length (dbs s)
                   = Some {| DB_DB := Some w |}).
    { apply list_lookup_middle. reflexivity. }
    erewrite bind_Ret; [|apply load_DB_eq; exact Hnew].
    unfold bind, extern, ret, embedded, with_env. cbn.
    destruct (gorm_Model _ _ _) as [m e1]. cbn.
    destruct (gorm_Count _ _ _) as [tx e2]. reflexivity.
Qed.

End GoFacts.

(** ** [New] on the reference mapper *)

Lemma append_empty_r (s : string) : s +:+ "" = s.
Proof.
  induction s as [|c s IH]; [reflexivity|].
  change (String c (s +:+ "") = String c s). now rewrite IH.
Qed.

Section NewFacts.
Variable oracle : list ref.Event -> option error.
Let RM : Mapper := ref.mapper oracle.
Local Existing Instance RM.

(** The three ways through [New]: the open call fails, the pool handle
    cannot be had, or the connection is returned. *)
Lemma New_ref (cfg : Config) (s : State) :
  let e1 := ref.log (ref.open_event cfg) (env s) in
  let e2 := ref.log (ref.EvDB (ref.opened cfg)) e1 in
  New cfg s =
  match oracle (ref.calls e1) with
  | Some e =>
      (Ret (None, Some (fmt.Errorf "failed to connect to database: %w" e)),
       with_env s e1)
  | None =>
      match oracle (ref.calls e2) with
      | Some e =>
          (Ret (None, Some (fmt.Errorf "failed to get database instance: %w" e)),
           with_env s e2)
      | None =>
          (Ret (Some (length (dbs s)), None),
           {| dbs := dbs s ++ [{| DB_DB := Some (ref.opened cfg) |}];
              repos := repos s;
              env := ref.connected cfg (env s) |})
      end
  end.
Proof.
  intros e1 e2. subst e1 e2.
  unfold New, bind, extern, ret, new_DB, with_env, ref.connected. cbn.
  fold (ref.open_event cfg).
  destruct (oracle (ref.calls (env s) ++ [ref.open_event cfg])); cbn;
    [reflexivity|].
  destruct (oracle _); reflexivity.
Qed.

(** The code's format string produces the specification's string. *)
Lemma dsn_of_spec (cfg : Config) : dsn_of cfg = spec_connection_string cfg.
Proof.
  change (dsn_of cfg) with
    ("host=" +:+ Host cfg +:+ " port=" +:+ Port cfg +:+ " user=" +:+ User cfg
       +:+ " password=" +:+ Password cfg +:+ " dbname=" +:+ DatabaseName cfg
       +:+ " sslmode=" +:+ SSLMode cfg +:+ " TimeZone=" +:+ TimeZone cfg +:+ "").
  now rewrite append_empty_r.
Qed.

(** C3. For every configuration, the string [New] hands to the driver is
    [host=<H> port=<P> user=<U> password=<Pw> dbname=<D> sslmode=<S>
    TimeZone=<T>]: those seven keys in that order, each with the value of
    its field.  It is the argument of the one [gorm.Open] call, the first
    call [New] makes, whatever the mapper answers; and it is the string the
    returned connection was opened with. *)
Theorem New_connection_string (cfg : Config) (s : State) :
  dsn_of cfg = spec_connection_string cfg /\
  spec_connection_string cfg =
    "host=" +:+ Host cfg +:+ " port=" +:+ Port cfg +:+ " user=" +:+ User cfg
      +:+ " password=" +:+ Password cfg +:+ " dbname=" +:+ DatabaseName cfg
      +:+ " sslmode=" +:+ SSLMode cfg +:+ " TimeZone=" +:+ TimeZone cfg /\
  (exists c rest,
      ref.calls (env (snd (New cfg s))) =
      ref.calls (env s)
        ++ ref.EvOpen (postgres_Open (spec_connection_string cfg)) c :: rest) /\
  (forall p, fst (New cfg s) = Ret (Some p, None) ->
     exists h,
       dbs (snd (New cfg s)) !! p = Some {| DB_DB := Some h |} /\
       ref.h_dialector h = postgres_Open (spec_connection_string cfg)).
Proof.
  pose proof (New_ref cfg s) as E. cbn zeta in E.
  rewrite <- (dsn_of_spec cfg).
  split; [reflexivity|]. split.
  { rewrite dsn_of_spec. reflexivity. }
  split.
  - exists {| Logger := logger.Default_LogMode (LogLevel cfg) |}.
    rewrite E. cbn.
    destruct (oracle _); [exists []; reflexivity|].
    destruct (oracle _); cbn.
    + exists [ref.EvDB (ref.opened cfg)]. rewrite <- app_assoc. reflexivity.
    + eexists. rewrite <- !app_assoc. reflexivity.
  - intros p. rewrite E. cbn.
    destruct (oracle _); [discriminate|].
    destruct (oracle _); [discriminate|]. cbn.
    intros [= <-]. exists (ref.opened cfg). split; [|reflexivity].
    apply list_lookup_middle. reflexivity.
Qed.

(** C10. [New] builds the mapper's configuration with the default logger
    set to exactly the configuration's [LogLevel]: that is the logger in the
    [gorm.Open] call, and the one the returned connection carries. *)
Theorem New_log_level (cfg : Config) (s : State) :
  (exists d rest,
      ref.calls (env (snd (New cfg s))) =
      ref.calls (env s)
        ++ ref.EvOpen d {| Logger := logger.Default_LogMode (LogLevel cfg) |}
        :: rest) /\
  (forall p, fst (New cfg s) = Ret (Some p, None) ->
     exists h,
       dbs (snd (New cfg s)) !! p = Some {| DB_DB := Some h |} /\
       logger.level_of (Logger (ref.h_config h)) = LogLevel cfg).
Proof.
  pose proof (New_ref cfg s) as E. cbn zeta in E. split.
  - exists (postgres_Open (dsn_of cfg)). rewrite E. cbn.
    destruct (oracle _); [exists []; reflexivity|].
    destruct (oracle _); cbn.
    + exists [ref.EvDB (ref.opened cfg)]. rewrite <- app_assoc. reflexivity.
    + eexists. rewrite <- !app_assoc. reflexivity.
  - intros p. rewrite E. cbn.
    destruct (oracle _); [discriminate|].
    destruct (oracle _); [discriminate|]. cbn.
    intros [= <-]. exists (ref.opened cfg). split; [|reflexivity].
    apply list_lookup_middle. reflexivity.
Qed.

(** C7. A [New] that returns a connection has applied the pool settings:
    its last three calls set the idle limit to the configuration's
    [MaxIdleConns], the open limit to its [MaxOpenConns], and the maximum
    connection lifetime to [time.Hour], one hour, for every configuration:
    no field of [Config] enters that last call.  (What database/sql then
    makes of the two limits is its own matter.) *)
Theorem New_pool_settings (cfg : Config) (s : State) (p : ptr) :
  fst (New cfg s) = Ret (p, None) ->
  (exists before,
      ref.calls (env (snd (New cfg s))) =
      before ++ [ref.EvSetMaxIdleConns (MaxIdleConns cfg);
                 ref.EvSetMaxOpenConns (MaxOpenConns cfg);
                 ref.EvSetConnMaxLifetime time.Hour]) /\
  time.Hour = 60 * 60 * 1000000000.
Proof.
  pose proof (New_ref cfg s) as E. cbn zeta in E. rewrite E.
  destruct (oracle _); [discriminate|].
  destruct (oracle _); [discriminate|]. cbn. intros _.
  split; [|reflexivity].
  exists (ref.calls (env s) ++ [ref.open_event cfg; ref.EvDB (ref.opened cfg)]).
  rewrite <- !app_assoc. reflexivity.
Qed.

End NewFacts.

(** ** The repository on the reference mapper *)

Section RepositoryFacts.
Variable oracle : list ref.Event -> option error.
Let RM : Mapper := ref.mapper oracle.
Local Existing Instance RM.

(** C4. For every page number and page size, [Paginate] makes one query:
    the repository's handle with the offset [(page-1)*pageSize] (in Go's
    [int]) and then the limit [pageSize] chained on it, finished by [Find]
    into the caller's slice.  Nothing depends on the sign of either number:
    page 1 gives offset 0, and page 0 with a positive page size gives the
    negative offset [-pageSize], handed to the mapper as it is. *)
Theorem Paginate_offset_limit (s : State) (r : nat) (ty : gotype) (g : ref.handle)
    (result : ptr) (page pageSize : Z) :
  repo_at s r ty g ->
  let offset := goint.wrap ((page - 1) * pageSize) in
  let q := ref.chain (ref.chain g (ref.Offset offset)) (ref.Limit pageSize) in
  let ev := ref.EvFind q (vptr (TSlice ty) result) [] in
  Paginate (Some r) result page pageSize s =
    (Ret (oracle (ref.calls (env s) ++ [ev])), with_env s (ref.log ev (env s))) /\
  ref.h_clauses q = ref.h_clauses g ++ [ref.Offset offset; ref.Limit pageSize] /\
  (goint.in_range ((page - 1) * pageSize) -> offset = (page - 1) * pageSize) /\
  (page = 1 -> offset = 0) /\
  (page = 0 -> 0 < pageSize <= goint.max_int ->
   offset = - pageSize /\ offset < 0).
Proof.
  intros Hr offset q ev.
  split.
  { unfold RM in *. rewrite (Paginate_calls _ _ _ _ result page pageSize Hr).
    reflexivity. }
  split.
  { cbn. rewrite <- app_assoc. reflexivity. }
  split; [apply wrap_id|]. split.
  - intros ->. reflexivity.
  - intros -> H. assert (offset = - pageSize) as ->; [|lia].
    subst offset. replace ((0 - 1) * pageSize) with (- pageSize) by ring.
    apply wrap_id. unfold goint.in_range, goint.min_int, goint.max_int, goint.bits in *.
    change (2 ^ (64 - 1)) with 9223372036854775808 in *. lia.
Qed.

(** [Count] on the reference mapper: the handle it counts on, the one call
    it makes, the [DB] it allocates when there is a filter. *)
Lemma Count_ref (s : State) (r : nat) (ty : gotype) (g : ref.handle)
    (count : ptr) (query : value) (args : list value) :
  repo_at s r ty g ->
  let filtered := if is_nil query then g else ref.chain g (ref.Where query args) in
  let ev := ref.EvCount (ref.chain filtered (ref.Model (vzero ty))) (vptr TInt64 count) in
  Count (Some r) count query args s =
  (Ret (oracle (ref.calls (env s) ++ [ev])),
   {| dbs := if is_nil query then dbs s
             else dbs s ++ [{| DB_DB := Some filtered |}];
      repos := repos s;
      env := ref.log ev (env s) |}).
Proof.
  intros Hr filtered ev. subst ev filtered.
  unfold RM in *. rewrite (Count_calls _ _ _ _ count query args Hr).
  destruct (is_nil query); reflexivity.
Qed.

(** C5. [Count] counts the records of the repository's type, with the
    caller's filter and its arguments applied exactly when the filter is not
    the nil interface: the one query it makes carries [Where query args]
    followed by [Model] of a zero [T] when [query] is non-nil, and [Model]
    alone when it is nil. *)
Theorem Count_filter_iff_query (s : State) (r : nat) (ty : gotype) (g : ref.handle)
    (count : ptr) (query : value) (args : list value) :
  repo_at s r ty g ->
  let filtered := if is_nil query then g else ref.chain g (ref.Where query args) in
  let q := ref.chain filtered (ref.Model (vzero ty)) in
  let ev := ref.EvCount q (vptr TInt64 count) in
  fst (Count (Some r) count query args s) = Ret (oracle (ref.calls (env s) ++ [ev])) /\
  env (snd (Count (Some r) count query args s)) = ref.log ev (env s) /\
  ref.h_clauses q =
    ref.h_clauses g
      ++ (if is_nil query then [] else [ref.Where query args])
      ++ [ref.Model (vzero ty)] /\
  (is_nil query = true <-> query = vnil).
Proof.
  intros Hr filtered q ev.
  rewrite (Count_ref _ _ _ _ count query args Hr). cbn [fst snd env].
  split; [reflexivity|]. split; [reflexivity|]. split.
  - subst q filtered.
    destruct (is_nil query); cbn; rewrite <- ?app_assoc; reflexivity.
  - destruct query; cbn; split; congruence.
Qed.

(** Every method makes one mapper call that can fail, and returns what that
    call answered. *)
Lemma invoke_ref (s : State) (r : nat) (ty : gotype) (g : ref.handle)
    (c : RepositoryCall) :
  repo_at s r ty g ->
  exists ev,
    fst (invoke (Some r) c s) = Ret (oracle (ref.calls (env s) ++ [ev])) /\
    ref.calls (env (snd (invoke (Some r) c s))) = ref.calls (env s) ++ [ev].
Proof.
  intros Hr. destruct (r_db_eq _ _ _ _ Hr) as (d & Hd).
  destruct c as [model|id result|result|result query args|result query args
                |model|model|count query args|result page pageSize];
    cbn [invoke];
    try (unfold Create, FindByID, FindAll, FindWhere, FindOne, Update, Delete,
           Paginate;
         cbn zeta; rewrite (bind_Ret _ _ _ _ _ Hd);
         eexists; split; reflexivity).
  1-3: unfold Create, Update, Delete; rewrite (bind_Ret _ _ _ _ _ Hd);
    eexists; (split; [reflexivity|]); cbn;
    destruct (oracle _); [reflexivity|];
    unfold ref.write; destruct (ref.h_tx g); reflexivity.
  rewrite (Count_ref _ _ _ _ count query args Hr).
  eexists; split; reflexivity.
Qed.

Lemma wrapError_neq (msg : string) (e : error) : wrapError msg e <> e.
Proof.
  intros H. apply (f_equal error_depth) in H. cbn in H. lia.
Qed.

Lemma Errorf_connect (e : error) :
  fmt.Errorf "failed to connect to database: %w" e =
  wrapError ("failed to connect to database: " +:+ Error_text e) e.
Proof.
  change (fmt.Errorf "failed to connect to database: %w" e) with
    (wrapError ("failed to connect to database: " +:+ Error_text e +:+ "") e).
  rewrite append_empty_r. reflexivity.
Qed.

Lemma Errorf_instance (e : error) :
  fmt.Errorf "failed to get database instance: %w" e =
  wrapError ("failed to get database instance: " +:+ Error_text e) e.
Proof.
  change (fmt.Errorf "failed to get database instance: %w" e) with
    (wrapError ("failed to get database instance: " +:+ Error_text e +:+ "") e).
  rewrite append_empty_r. reflexivity.
Qed.

(** C8, as the code has it.  On a live repository and connection, every
    [Repository] method, [Ping], [Close], [AutoMigrate] and
    [WithTransaction] return the error of the mapper call that failed, as
    it is: one call, its answer returned.  [New] is the exception: a failed
    open or a failed pool lookup comes back as a new error, whose text is
    ["failed to connect to database: "] or ["failed to get database
    instance: "] followed by the cause's text, and which wraps the cause. *)
Theorem errors_returned_unchanged_except_New (s : State) (r d : nat) (ty : gotype)
    (g : ref.handle) (c : RepositoryCall) (models : list value)
    (fn : ref.handle -> ref.World -> option error * ref.World) (cfg : Config) :
  repos s !! r = Some {| T := ty; db := Some d |} ->
  dbs s !! d = Some {| DB_DB := Some g |} ->
  let cs := ref.calls (env s) in
  (exists ev,
      fst (invoke (Some r) c s) = Ret (oracle (cs ++ [ev])) /\
      ref.calls (env (snd (invoke (Some r) c s))) = cs ++ [ev]) /\
  fst (Ping (Some d) s) =
    Ret (match oracle (cs ++ [ref.EvDB g]) with
         | Some e => Some e
         | None => oracle ((cs ++ [ref.EvDB g]) ++ [ref.EvPing])
         end) /\
  fst (Close (Some d) s) =
    Ret (match oracle (cs ++ [ref.EvDB g]) with
         | Some e => Some e
         | None => oracle ((cs ++ [ref.EvDB g]) ++ [ref.EvClose])
         end) /\
  fst (AutoMigrate (Some d) models s) =
    Ret (oracle (cs ++ [ref.EvAutoMigrate g models])) /\
  fst (WithTransaction (Some d) fn s) =
    Ret (fst (fn (ref.in_tx g) (ref.tx_begin g (env s)))) /\
  fst (New cfg s) =
    Ret (match oracle (cs ++ [ref.open_event cfg]) with
         | Some e =>
             (None,
              Some (wrapError ("failed to connect to database: " +:+ Error_text e) e))
         | None =>
             match oracle ((cs ++ [ref.open_event cfg])
                             ++ [ref.EvDB (ref.opened cfg)]) with
             | Some e =>
                 (None,
                  Some (wrapError
                          ("failed to get database instance: " +:+ Error_text e) e))
             | None => (Some (length (dbs s)), None)
             end
         end) /\
  (forall msg e, wrapError msg e <> e /\ Unwrap (wrapError msg e) = Some e).
Proof.
  intros Hr Hd cs. subst cs.
  assert (Hat : repo_at s r ty g) by (exists d; split; assumption).
  split; [apply (invoke_ref _ _ _ _ c Hat)|].
  split.
  { unfold Ping. rewrite (bind_Ret _ _ _ _ _ (load_DB_eq _ _ _ Hd)).
    cbn [embedded DB_DB]. unfold bind, ret, extern. cbn.
    destruct (oracle (ref.calls (env s) ++ [ref.EvDB g])); reflexivity. }
  split.
  { unfold Close. rewrite (bind_Ret _ _ _ _ _ (load_DB_eq _ _ _ Hd)).
    cbn [embedded DB_DB]. unfold bind, ret, extern. cbn.
    destruct (oracle (ref.calls (env s) ++ [ref.EvDB g])); reflexivity. }
  split.
  { unfold AutoMigrate. rewrite (bind_Ret _ _ _ _ _ (load_DB_eq _ _ _ Hd)).
    reflexivity. }
  split.
  { unfold WithTransaction. rewrite (bind_Ret _ _ _ _ _ (load_DB_eq _ _ _ Hd)).
    cbn [embedded DB_DB]. unfold bind, ret, extern. cbn. unfold ref.Transaction.
    destruct (fn (ref.in_tx g) (ref.tx_begin g (env s))); reflexivity. }
  split.
  { pose proof (New_ref oracle cfg s) as E. cbn zeta in E.
    unfold RM in *. rewrite E. cbn [ref.log ref.calls].
    destruct (oracle _); cbn [fst]; [now rewrite Errorf_connect|].
    destruct (oracle _); cbn [fst]; [now rewrite Errorf_instance|reflexivity]. }
  intros msg e. split; [apply wrapError_neq | reflexivity].
Qed.

End RepositoryFacts.

(** ** What the methods leave untouched *)

Section Frame.
Context `{M : Mapper}.

Lemma frame_refl (s : State) : frame s s.
Proof. split; [reflexivity|]. exists []. symmetry. apply app_nil_r. Qed.

Lemma frame_trans (s1 s2 s3 : State) : frame s1 s2 -> frame s2 s3 -> frame s1 s3.
Proof.
  intros [R1 [f1 D1]] [R2 [f2 D2]]. split; [congruence|].
  exists (f1 ++ f2). rewrite D2, D1. symmetry. apply app_assoc.
Qed.

Lemma keeps_ret {A} (a : A) : keeps (ret a).
Proof. intros s. apply frame_refl. Qed.

Lemma keeps_panic {A} : keeps (@panic M A).
Proof. intros s. apply frame_refl. Qed.

Lemma keeps_extern {A} (c : Env -> A * Env) : keeps (extern c).
Proof.
  intros s. rewrite extern_eq. split; [reflexivity|].
  exists []. cbn. symmetry. apply app_nil_r.
Qed.

Lemma keeps_load_Repository (p : ptr) : keeps (load_Repository p).
Proof.
  intros s. unfold load_Repository.
  destruct p as [a|]; [destruct (repos s !! a)|]; apply frame_refl.
Qed.

Lemma keeps_load_DB (p : ptr) : keeps (load_DB p).
Proof.
  intros s. unfold load_DB.
  destruct p as [a|]; [destruct (dbs s !! a)|]; apply frame_refl.
Qed.

Lemma keeps_embedded (d : DB) : keeps (embedded d).
Proof. unfold embedded. destruct (DB_DB d); [apply keeps_ret | apply keeps_panic]. Qed.

(** Allocating a [DB] only appends to the store of [DB] structs. *)
Lemma keeps_new_DB (d : DB) : keeps (new_DB d).
Proof. intros s. split; [reflexivity|]. now exists [d]. Qed.

Lemma keeps_bind {A B} (m : Go A) (k : A -> Go B) :
  keeps m -> (forall a, keeps (k a)) -> keeps (bind m k).
Proof.
  intros Hm Hk s. unfold bind. specialize (Hm s).
  destruct (m s) as [[a|] s1]; cbn in *; [|exact Hm].
  eapply frame_trans; [exact Hm | apply Hk].
Qed.

Lemma keeps_r_db (r : ptr) : keeps (r_db r).
Proof.
  unfold r_db.
  repeat (apply keeps_bind; [|intros ?]);
    auto using keeps_load_Repository, keeps_load_DB, keeps_embedded, keeps_ret.
Qed.

End Frame.

Create HintDb keeps discriminated.
#[export] Hint Resolve keeps_ret keeps_panic keeps_extern keeps_load_Repository
  keeps_load_DB keeps_embedded keeps_new_DB keeps_r_db : keeps.

(** One step of a frame proof: split a bind, open a pair or a branch. *)
Ltac keeps_step :=
  match goal with
  | |- keeps (bind _ _) => apply keeps_bind; [|intros ?]
  | |- keeps (let '(_, _) := ?x in _) => destruct x
  | |- keeps (if ?b then _ else _) => destruct b
  | |- keeps (match ?x with _ => _ end) => destruct x
  | |- keeps _ => solve [auto with keeps]
  end.

Section FrameOfMethods.
Context `{M : Mapper}.

Lemma keeps_invoke (r : ptr) (c : RepositoryCall) : keeps (invoke r c).
Proof.
  destruct c; cbn [invoke];
    unfold Create, FindByID, FindAll, FindWhere, FindOne, Update, Delete,
      Count, Paginate;
    repeat keeps_step.
Qed.

Lemma frame_invoke_all (r : ptr) (cs : list RepositoryCall) (s : State) :
  frame s (invoke_all r cs s).
Proof.
  revert s. induction cs as [|c cs IH]; intros s; cbn [invoke_all].
  - apply frame_refl.
  - eapply frame_trans; [apply keeps_invoke | apply IH].
Qed.

(** C9. No method of [Repository] writes the repository: after any call,
    with any arguments and whatever the mapper does, the store of
    [Repository] structs is the one before the call and every [DB] struct
    that existed is unchanged ([Count] with a filter allocates a new [DB]
    and leaves the stored one alone).  So after [NewRepository] and any run
    of calls, the [db] field read through the returned pointer is still the
    reference [NewRepository] stored. *)
Theorem Repository_calls_keep_db (r : ptr) (c : RepositoryCall) (s : State)
    (ty : gotype) (db0 : ptr) (cs : list RepositoryCall) :
  (repos (snd (invoke r c s)) = repos s /\
   exists fresh, dbs (snd (invoke r c s)) = dbs s ++ fresh) /\
  (let r0 := Some (length (repos s)) in
   let s0 := snd (NewRepository ty db0 s) in
   fst (NewRepository ty db0 s) = Ret r0 /\
   fst (load_Repository r0 (invoke_all r0 cs s0)) = Ret {| T := ty; db := db0 |}).
Proof.
  split; [apply keeps_invoke|].
  cbn zeta. split; [reflexivity|].
  destruct (frame_invoke_all (Some (length (repos s))) cs
              (snd (NewRepository ty db0 s))) as [HR _].
  unfold load_Repository. rewrite HR. cbn.
  rewrite list_lookup_middle by reflexivity. reflexivity.
Qed.

(** C6. [WithTransaction(fn)] hands [fn] to the mapper's [Transaction] on
    the connection's handle and returns its result.  Under the mapper's
    contract: [fn] runs on the transactional handle; the scope is committed
    exactly when [fn] returns no error and rolled back otherwise; the error
    [fn] returned is the one returned; after a commit what [fn] staged is
    what everyone sees, and after a rollback (with [fn] writing through the
    handle it was given) everyone sees what they saw before the call. *)
Theorem WithTransaction_commit_or_rollback (View : Type)
    (C : TransactionContract View) (s : State) (d : nat) (g : gormDB)
    (fn : gormDB -> Env -> option error * Env) :
  dbs s !! d = Some {| DB_DB := Some g |} ->
  let e0 := tx_begin C g (env s) in
  let r := fst (fn (tx_handle C g) e0) in
  let e1 := snd (fn (tx_handle C g) e0) in
  let s' := snd (WithTransaction (Some d) fn s) in
  fst (WithTransaction (Some d) fn s) = Ret r /\
  env s' = match r with None => tx_commit C e1 | Some _ => tx_rollback C e1 end /\
  (r = None -> committed C (env s') = staged C e1) /\
  (r <> None -> committed C e1 = committed C e0 ->
   committed C (env s') = committed C (env s)).
Proof.
  intros Hd e0 r e1 s'.
  assert (Hrun : WithTransaction (Some d) fn s =
                 (Ret r, with_env s (match r with
                                     | None => tx_commit C e1
                                     | Some _ => tx_rollback C e1
                                     end))).
  { unfold WithTransaction. rewrite (bind_Ret _ _ _ _ _ (load_DB_eq _ _ _ Hd)).
    cbn [embedded DB_DB]. unfold bind at 1, ret at 1.
    rewrite extern_eq, (contract_run _ C). subst r e1 e0.
    destruct (fn (tx_handle C g) (tx_begin C g (env s))) as [r e1]. reflexivity. }
  subst s'. rewrite Hrun. cbn [fst snd env with_env].
  split; [reflexivity|]. split; [reflexivity|]. split.
  - intros ->. apply contract_commit.
  - intros Hr Hiso. destruct r as [err|]; [|congruence].
    rewrite contract_rollback, Hiso. apply contract_begin.
Qed.

End FrameOfMethods.

(** ** The method set *)

Lemma method_of_declared (c : RepositoryCall) :
  select_method (method_name (method_of c)) = Some (method_of c).
Proof. destruct c; reflexivity. Qed.

(** C1. The specification lists eleven operations on [Repository]; the
    source declares nine methods.  Selecting [DeleteWhere] or
    [PaginateWhere] on a repository finds no method, and these two are
    exactly the listed operations that are missing; the other nine are
    declared under the listed names. *)
Theorem Repository_lacks_DeleteWhere_PaginateWhere :
  select_method "DeleteWhere" = None /\
  select_method "PaginateWhere" = None /\
  List.filter
    (fun name => match select_method name with Some _ => false | None => true end)
    spec_operations
    = ["DeleteWhere"; "PaginateWhere"] /\
  map method_name Repository_methods
    = ["Create"; "FindByID"; "FindAll"; "FindWhere"; "FindOne"; "Update";
       "Delete"; "Count"; "Paginate"].
Proof. repeat split. Qed.

(** ** Worked cases *)

Example dsn_default :
  dsn_of DefaultConfig =
  "host=localhost port=5432 user=postgres password=postgres dbname=postgres sslmode=disable TimeZone=UTC".
Proof. reflexivity. Qed.

(** Page 3 of size 10 starts at offset 20; page 0 starts at -10. *)
Example paginate_page3 : goint.mul (goint.sub 3 1) 10 = 20.
Proof. reflexivity. Qed.

Example paginate_page0 : goint.mul (goint.sub 0 1) 10 = -10.
Proof. reflexivity. Qed.

(** The product is Go's: beyond 64 bits it wraps. *)
Example paginate_wraps : goint.mul (goint.sub (2 ^ 62 + 1) 1) 4 = 0.
Proof. reflexivity. Qed.

(** [Count] with the nil interface and arguments: the arguments are
    dropped with the filter. *)
Example count_nil_query :
  ref.calls (env (snd (@Count (ref.mapper ref.all_ok) (Some 0%nat) (Some 7%nat)
                         vnil [vstring "active"] (one_repo ref.all_ok))))
  = [ref.EvCount (ref.chain (ref.opened DefaultConfig)
                            (ref.Model (vzero (TEntity "User"))))
                 (vptr TInt64 (Some 7%nat))].
Proof. reflexivity. Qed.

(** C8 as stated fails on [New]: with a driver that refuses the
    connection, the error [New] returns is not the driver's error but a new
    one around it. *)
Lemma New_wraps_the_open_error :
  let cause := errorString "connection refused" in
  let oracle := ref.fail_at 0 cause in
  oracle [ref.open_event DefaultConfig] = Some cause /\
  fst (@New (ref.mapper oracle) DefaultConfig (ref.init oracle))
    = Ret (None,
           Some (wrapError "failed to connect to database: connection refused" cause)) /\
  wrapError "failed to connect to database: connection refused" cause <> cause.
Proof.
  cbn zeta. split; [reflexivity|]. split; [reflexivity|]. discriminate.
Qed.

(** ** Instances at concrete inputs *)

Lemma one_repo_at (oracle : list ref.Event -> option error) :
  @repo_at (ref.mapper oracle) (one_repo oracle) 0 (TEntity "User")
           (ref.opened DefaultConfig).
Proof. exists 0%nat. split; reflexivity. Defined.

Lemma New_connection_string_witness :
  fst (@New (ref.mapper ref.all_ok) DefaultConfig (ref.init ref.all_ok))
    = Ret (Some 0%nat, None) /\
  exists h,
    dbs (snd (@New (ref.mapper ref.all_ok) DefaultConfig (ref.init ref.all_ok))) !! 0%nat
      = Some {| DB_DB := Some h |} /\
    ref.h_dialector h = postgres_Open (spec_connection_string DefaultConfig).
Proof.
  split; [reflexivity|].
  exact (proj2 (proj2 (proj2
           (New_connection_string ref.all_ok DefaultConfig (ref.init ref.all_ok))))
           0%nat eq_refl).
Defined.

Lemma New_log_level_witness :
  fst (@New (ref.mapper ref.all_ok) DefaultConfig (ref.init ref.all_ok))
    = Ret (Some 0%nat, None) /\
  exists h,
    dbs (snd (@New (ref.mapper ref.all_ok) DefaultConfig (ref.init ref.all_ok))) !! 0%nat
      = Some {| DB_DB := Some h |} /\
    logger.level_of (Logger (ref.h_config h)) = logger.Silent.
Proof.
  split; [reflexivity|].
  exact (proj2 (New_log_level ref.all_ok DefaultConfig (ref.init ref.all_ok))
           0%nat eq_refl).
Defined.

Lemma New_pool_settings_witness :
  fst (@New (ref.mapper ref.all_ok) DefaultConfig (ref.init ref.all_ok))
    = Ret (Some 0%nat, None) /\
  exists before,
    ref.calls (env (snd (@New (ref.mapper ref.all_ok) DefaultConfig
                           (ref.init ref.all_ok))))
    = before ++ [ref.EvSetMaxIdleConns 10; ref.EvSetMaxOpenConns 100;
                 ref.EvSetConnMaxLifetime 3600000000000].
Proof.
  split; [reflexivity|].
  exact (proj1 (New_pool_settings ref.all_ok DefaultConfig (ref.init ref.all_ok)
                  (Some 0%nat) eq_refl)).
Defined.

Lemma Paginate_offset_limit_witness :
  @repo_at (ref.mapper ref.all_ok) (one_repo ref.all_ok) 0 (TEntity "User")
           (ref.opened DefaultConfig) /\
  0 < 10 <= goint.max_int /\
  goint.wrap ((0 - 1) * 10) = -10 /\
  @Paginate (ref.mapper ref.all_ok) (Some 0%nat) (Some 5%nat) 0 10 (one_repo ref.all_ok)
    = (Ret None,
       with_env (one_repo ref.all_ok)
         (ref.log
            (ref.EvFind
               (ref.chain (ref.chain (ref.opened DefaultConfig) (ref.Offset (-10)))
                          (ref.Limit 10))
               (vptr (TSlice (TEntity "User")) (Some 5%nat)) [])
            ref.empty)).
Proof.
  assert (Hrange : 0 < 10 <= goint.max_int) by (vm_compute; split; [reflexivity | discriminate]).
  pose proof (Paginate_offset_limit ref.all_ok (one_repo ref.all_ok) 0
                (TEntity "User") (ref.opened DefaultConfig) (Some 5%nat) 0 10
                (one_repo_at ref.all_ok)) as H.
  cbv zeta in H. destruct H as (Hrun & _ & _ & _ & Hzero).
  split; [exact (one_repo_at ref.all_ok)|]. split; [exact Hrange|].
  split; [exact (proj1 (Hzero eq_refl Hrange))|]. exact Hrun.
Defined.

Lemma Count_filter_iff_query_witness :
  @repo_at (ref.mapper ref.all_ok) (one_repo ref.all_ok) 0 (TEntity "User")
           (ref.opened DefaultConfig) /\
  env (snd (@Count (ref.mapper ref.all_ok) (Some 0%nat) (Some 7%nat)
              (vstring "status = ?") [vstring "active"] (one_repo ref.all_ok)))
  = ref.log
      (ref.EvCount
         (ref.chain (ref.chain (ref.opened DefaultConfig)
                               (ref.Where (vstring "status = ?") [vstring "active"]))
                    (ref.Model (vzero (TEntity "User"))))
         (vptr TInt64 (Some 7%nat)))
      ref.empty.
Proof.
  split; [exact (one_repo_at ref.all_ok)|].
  exact (proj1 (proj2
           (Count_filter_iff_query ref.all_ok (one_repo ref.all_ok) 0 (TEntity "User")
              (ref.opened DefaultConfig) (Some 7%nat) (vstring "status = ?")
              [vstring "active"] (one_repo_at ref.all_ok)))).
Defined.

(** A callback that inserts and then fails leaves nothing visible; the same
    insert followed by success is visible. *)
Lemma WithTransaction_commit_or_rollback_witness :
  let M := ref.mapper ref.all_ok in
  let s := one_repo ref.all_ok in
  let boom := errorString "boom" in
  let failing := insert_then (Some boom) ref.all_ok in
  let passing := insert_then None ref.all_ok in
  dbs s !! 0%nat = Some {| DB_DB := Some (ref.opened DefaultConfig) |} /\
  (fst (@WithTransaction M (Some 0%nat) failing s) = Ret (Some boom) /\
   ref.committed (env (snd (@WithTransaction M (Some 0%nat) failing s))) = []) /\
  (fst (@WithTransaction M (Some 0%nat) passing s) = Ret None /\
   ref.committed (env (snd (@WithTransaction M (Some 0%nat) passing s)))
     = [ref.EvCreate (ref.in_tx (ref.opened DefaultConfig))
                     (vptr (TEntity "User") (Some 1%nat))]).
Proof.
  cbv zeta.
  pose proof (@WithTransaction_commit_or_rollback (ref.mapper ref.all_ok) _
                (ref_contract ref.all_ok) (one_repo ref.all_ok) 0
                (ref.opened DefaultConfig)
                (insert_then (Some (errorString "boom")) ref.all_ok) eq_refl) as Hf.
  pose proof (@WithTransaction_commit_or_rollback (ref.mapper ref.all_ok) _
                (ref_contract ref.all_ok) (one_repo ref.all_ok) 0
                (ref.opened DefaultConfig)
                (insert_then None ref.all_ok) eq_refl) as Hp.
  cbv zeta in Hf, Hp.
  destruct Hf as (Hf1 & _ & _ & Hf4). destruct Hp as (Hp1 & _ & Hp3 & _).
  split; [reflexivity|]. split; split.
  - exact Hf1.
  - exact (Hf4 ltac:(discriminate) eq_refl).
  - exact Hp1.
  - exact (Hp3 eq_refl).
Defined.

Lemma errors_returned_unchanged_except_New_witness :
  let cause := errorString "connection refused" in
  let oracle := ref.fail_at 0 cause in
  repos (one_repo oracle) !! 0%nat = Some {| T := TEntity "User"; db := Some 0%nat |} /\
  dbs (one_repo oracle) !! 0%nat
    = Some (@Build_DB (ref.mapper oracle) (Some (ref.opened DefaultConfig))) /\
  fst (@Ping (ref.mapper oracle) (Some 0%nat) (one_repo oracle)) = Ret (Some cause) /\
  fst (@New (ref.mapper oracle) DefaultConfig (one_repo oracle))
    = Ret (None,
           Some (wrapError "failed to connect to database: connection refused" cause)).
Proof.
  cbv zeta.
  pose proof (errors_returned_unchanged_except_New
                (ref.fail_at 0 (errorString "connection refused"))
                (one_repo _) 0 0 (TEntity "User") (ref.opened DefaultConfig)
                (call_FindAll None) []
                (insert_then None (ref.fail_at 0 (errorString "connection refused")))
                DefaultConfig eq_refl eq_refl) as H.
  cbv zeta in H. destruct H as (_ & HPing & _ & _ & _ & HNew & _).
  split; [reflexivity|]. split; [reflexivity|]. split; [exact HPing | exact HNew].
Defined.

(** * Further properties of the package *)

(** ** Nil pointers, liveness and aliasing, for every mapper *)

Section Robustness.
Context `{M : Mapper}.

Lemma bind_Panic {A B} (m : Go A) (k : A -> Go B) s s' :
  m s = (Panic, s') -> bind m k s = (Panic, s').
Proof. intros E. unfold bind. now rewrite E. Qed.

Lemma r_db_nil s r ty :
  repos s !! r = Some {| T := ty; db := None |} -> r_db (Some r) s = (Panic, s).
Proof.
  intros Hr. unfold r_db.
  rewrite (bind_Ret _ _ _ _ _ (load_Repository_eq _ _ _ Hr)). reflexivity.
Qed.

(** A repository whose [db] field is nil: every method panics where it
    stands. *)
Lemma invoke_nil_db s r ty (c : RepositoryCall) :
  repos s !! r = Some {| T := ty; db := None |} -> invoke (Some r) c s = (Panic, s).
Proof.
  intros Hr. pose proof (r_db_nil _ _ _ Hr) as Hp.
  destruct c as [model|id result|result|result query args|result query args
                |model|model|count query args|result page pageSize];
    cbn [invoke];
    try (unfold Create, FindByID, FindAll, FindWhere, FindOne, Update, Delete,
           Paginate; cbn zeta; apply bind_Panic; exact Hp).
  unfold Count. rewrite (bind_Ret _ _ _ _ _ (load_Repository_eq _ _ _ Hr)).
  cbn [db]. destruct (is_nil query); reflexivity.
Qed.

(** X1. [NewRepository] does not check its argument: given a nil [db] it
    still returns a repository, and every method called on that repository
    panics on the nil dereference before any mapper call is made; the same
    holds for a method called on a nil repository. *)
Theorem nil_db_repository_panics (ty : gotype) (c : RepositoryCall) (s : State) :
  let r := Some (length (repos s)) in
  let s1 := snd (NewRepository ty None s) in
  fst (NewRepository ty None s) = Ret r /\
  env s1 = env s /\
  invoke r c s1 = (Panic, s1) /\
  invoke None c s = (Panic, s).
Proof.
  cbn zeta. split; [reflexivity|]. split; [reflexivity|]. split.
  - apply (invoke_nil_db _ _ ty). cbn. apply list_lookup_middle. reflexivity.
  - destruct c; reflexivity.
Qed.

(** X2. The connection methods have no nil guard either: on a nil [*DB],
    [Ping], [Close], [AutoMigrate] and [WithTransaction] panic on the
    package's own dereference of the pointer, before any mapper call. *)
Theorem nil_connection_panics (models : list value)
    (fn : gormDB -> Env -> option error * Env) (s : State) :
  Ping None s = (Panic, s) /\ Close None s = (Panic, s) /\
  AutoMigrate None models s = (Panic, s) /\
  WithTransaction None fn s = (Panic, s).
Proof. repeat split. Qed.

(** X3. [New] never panics and returns exactly one of a connection and an
    error: with an error the pointer is nil and nothing was allocated;
    without one the pointer is that of a newly allocated [DB] whose embedded
    handle is not nil.  No repository is touched. *)
Theorem New_connection_xor_error (cfg : Config) (s : State) :
  exists p err,
    fst (New cfg s) = Ret (p, err) /\
    repos (snd (New cfg s)) = repos s /\
    ((p = None /\ err <> None /\ dbs (snd (New cfg s)) = dbs s) \/
     (p = Some (length (dbs s)) /\ err = None /\
      exists g, dbs (snd (New cfg s)) = dbs s ++ [{| DB_DB := Some g |}])).
Proof.
  unfold New, bind, extern, ret, new_DB, with_env. cbn.
  destruct (gorm_Open _ _ _) as [[gdb [e|]] e1]; cbn.
  { eexists _, _. split; [reflexivity|]. split; [reflexivity|].
    left. repeat split. discriminate. }
  destruct (gorm_DB _ _) as [[sq [e|]] e2]; cbn.
  { eexists _, _. split; [reflexivity|]. split; [reflexivity|].
    left. repeat split. discriminate. }
  destruct (sql_SetMaxIdleConns _ _ _) as [[] e3]; cbn.
  destruct (sql_SetMaxOpenConns _ _ _) as [[] e4]; cbn.
  destruct (sql_SetConnMaxLifetime _ _ _) as [[] e5]; cbn.
  eexists _, _. split; [reflexivity|]. split; [reflexivity|].
  right. repeat split. exists gdb. reflexivity.
Qed.

Lemma repo_at_frame s s' r ty g :
  frame s s' -> repo_at s r ty g -> repo_at s' r ty g.
Proof.
  intros [HR [fresh HD]] (d & Hr & Hd). exists d. split.
  - now rewrite HR.
  - rewrite HD. now apply lookup_app_l_Some.
Qed.

(** On a live repository the package's part of every method goes through
    (its mapper calls return, by the class); only a filtered [Count]
    allocates, and then one [DB]. *)
Lemma invoke_live s r ty g (c : RepositoryCall) :
  repo_at s r ty g ->
  exists err,
    fst (invoke (Some r) c s) = Ret err /\
    if allocates c
    then exists w, dbs (snd (invoke (Some r) c s)) = dbs s ++ [{| DB_DB := Some w |}]
    else dbs (snd (invoke (Some r) c s)) = dbs s.
Proof.
  intros Hr. destruct (r_db_eq _ _ _ _ Hr) as (d & Hd).
  destruct c as [model|id result|result|result query args|result query args
                |model|model|count query args|result page pageSize];
    cbn [invoke allocates].
  9: { rewrite (Paginate_calls _ _ _ _ result page pageSize Hr).
       destruct (gorm_Offset _ _ _) as [o e1].
       destruct (gorm_Limit _ _ _) as [l e2].
       destruct (gorm_Find _ _ _ _) as [tx e3]. eexists. split; reflexivity. }
  8: { rewrite (Count_calls _ _ _ _ count query args Hr).
       destruct (is_nil query); cbn [negb].
       - destruct (gorm_Model _ _ _) as [m e1].
         destruct (gorm_Count _ _ _) as [tx e2]. eexists. split; reflexivity.
       - destruct (gorm_Where _ _ _ _) as [w e0].
         destruct (gorm_Model _ _ _) as [m e1].
         destruct (gorm_Count _ _ _) as [tx e2].
         eexists. split; [reflexivity|]. exists w. reflexivity. }
  all: unfold Create, FindByID, FindAll, FindWhere, FindOne, Update, Delete;
    rewrite (bind_Ret _ _ _ _ _ Hd); unfold bind, extern, ret; cbn.
  - destruct (gorm_Create _ _ _). eexists. split; reflexivity.
  - destruct (gorm_First _ _ _ _). eexists. split; reflexivity.
  - destruct (gorm_Find _ _ _ _). eexists. split; reflexivity.
  - destruct (gorm_Where _ _ _ _). cbn. destruct (gorm_Find _ _ _ _).
    eexists. split; reflexivity.
  - destruct (gorm_Where _ _ _ _). cbn. destruct (gorm_First _ _ _ _).
    eexists. split; reflexivity.
  - destruct (gorm_Save _ _ _). eexists. split; reflexivity.
  - destruct (gorm_Delete _ _ _ _). eexists. split; reflexivity.
Qed.

(** X5. A live repository stays live: a run of method calls on any
    repository, with any arguments and whatever the mapper answers, leaves
    it pointing to the same [DB] and the same handle, so in the next call
    the package's own dereferences ([r], [r.db], the embedded handle) go
    through and reach that handle. *)
Theorem live_repository_stays_live (s : State) (r : nat) (ty : gotype) (g : gormDB)
    (r' : ptr) (cs : list RepositoryCall) :
  repo_at s r ty g ->
  let s' := invoke_all r' cs s in
  repo_at s' r ty g /\
  exists d, r_db (Some r) s' = (Ret ({| T := ty; db := Some d |}, g), s').
Proof.
  intros Hr s'.
  assert (Hlive : repo_at s' r ty g).
  { eapply repo_at_frame; [apply frame_invoke_all | exact Hr]. }
  split; [exact Hlive|]. exact (r_db_eq _ _ _ _ Hlive).
Qed.

(** X12. Repositories share a connection by reference: two repositories
    made on the same [*DB] get distinct addresses and both reach the same
    handle; making them calls nothing and changes no [DB]. *)
Theorem repositories_share_db (s : State) (d : nat) (g : gormDB) (ty1 ty2 : gotype) :
  dbs s !! d = Some {| DB_DB := Some g |} ->
  let s1 := snd (NewRepository ty1 (Some d) s) in
  let s2 := snd (NewRepository ty2 (Some d) s1) in
  let r1 := length (repos s) in
  let r2 := S (length (repos s)) in
  fst (NewRepository ty1 (Some d) s) = Ret (Some r1) /\
  fst (NewRepository ty2 (Some d) s1) = Ret (Some r2) /\
  repo_at s2 r1 ty1 g /\ repo_at s2 r2 ty2 g /\
  env s2 = env s /\ dbs s2 = dbs s.
Proof.
  intros Hd. cbn zeta. split; [reflexivity|]. split.
  { cbn. rewrite length_app. cbn. f_equal. f_equal. lia. }
  split.
  { exists d. split; [|exact Hd]. cbn. rewrite <- app_assoc.
    apply list_lookup_middle. reflexivity. }
  split; [|split; reflexivity].
  exists d. split; [|exact Hd]. cbn.
  apply list_lookup_middle. rewrite length_app. cbn. lia.
Qed.

(** X11. On a live repository no method allocates a [DB], except [Count]
    with a non-nil filter, which allocates exactly one around the filtered
    handle on every call. *)
Theorem only_filtered_Count_allocates (s : State) (r : nat) (ty : gotype)
    (g : gormDB) (c : RepositoryCall) :
  repo_at s r ty g ->
  (allocates c = false -> dbs (snd (invoke (Some r) c s)) = dbs s) /\
  (allocates c = true ->
   exists w, dbs (snd (invoke (Some r) c s)) = dbs s ++ [{| DB_DB := Some w |}]).
Proof.
  intros Hr. destruct (invoke_live _ _ _ _ c Hr) as (err & _ & H).
  destruct (allocates c); split; intros E; try discriminate; exact H.
Qed.

(** The connection methods read the store and never write it. *)
Lemma connection_stores (p : ptr) (models : list value)
    (fn : gormDB -> Env -> option error * Env) (s : State) :
  (dbs (snd (Ping p s)) = dbs s /\ repos (snd (Ping p s)) = repos s) /\
  (dbs (snd (Close p s)) = dbs s /\ repos (snd (Close p s)) = repos s) /\
  (dbs (snd (AutoMigrate p models s)) = dbs s /\
   repos (snd (AutoMigrate p models s)) = repos s) /\
  (dbs (snd (WithTransaction p fn s)) = dbs s /\
   repos (snd (WithTransaction p fn s)) = repos s).
Proof.
  unfold Ping, Close, AutoMigrate, WithTransaction, bind, load_DB, embedded,
    extern, ret, panic, with_env.
  destruct p as [a|]; [|repeat split].
  destruct (dbs s !! a) as [[[g|]]|]; cbn; [|repeat split..].
  destruct (gorm_DB g (env s)) as [[sq [e|]] e1]; cbn;
    destruct (gorm_AutoMigrate g models (env s));
    destruct (gorm_Transaction g fn (env s));
    try destruct (sql_Ping sq e1); try destruct (sql_Close sq e1);
    repeat split.
Qed.

(** X13. [Close] keeps no record of having closed: the wrapper is left as
    it was, so a [Ping] after [Close] does not panic and is not refused by
    the package; it asks the mapper for the pool again and, if that works,
    probes it, and returns what the mapper answers. *)
Theorem Close_then_Ping (s : State) (d : nat) (g : gormDB) :
  dbs s !! d = Some {| DB_DB := Some g |} ->
  let s1 := snd (Close (Some d) s) in
  dbs s1 !! d = Some {| DB_DB := Some g |} /\
  Ping (Some d) s1 =
    let '(sq, err, e1) := gorm_DB g (env s1) in
    match err with
    | Some e => (Ret (Some e), with_env s1 e1)
    | None => let '(res, e2) := sql_Ping sq e1 in (Ret res, with_env s1 e2)
    end.
Proof.
  intros Hd s1.
  assert (Hd1 : dbs s1 !! d = Some {| DB_DB := Some g |}).
  { subst s1.
    destruct (connection_stores (Some d) [] (fun _ e => (None, e)) s)
      as (_ & [E _] & _).
    rewrite E. exact Hd. }
  split; [exact Hd1|].
  unfold Ping. rewrite (bind_Ret _ _ _ _ _ (load_DB_eq _ _ _ Hd1)).
  unfold bind, embedded, extern, ret. cbn.
  destruct (gorm_DB g (env s1)) as [[sq [e|]] e1]; cbn; [reflexivity|].
  destruct (sql_Ping sq e1). reflexivity.
Qed.

(** A [New] that returns a connection allocated it at the next address,
    around the handle [gorm.Open] returned. *)
Lemma New_success (cfg : Config) (s : State) (p : nat) :
  fst (New cfg s) = Ret (Some p, None) ->
  let g := fst (fst (gorm_Open (postgres_Open (dsn_of cfg))
                       {| Logger := logger.Default_LogMode (LogLevel cfg) |}
                       (env s))) in
  p = length (dbs s) /\
  repos (snd (New cfg s)) = repos s /\
  dbs (snd (New cfg s)) = dbs s ++ [{| DB_DB := Some g |}].
Proof.
  unfold New, bind, extern, ret, new_DB, with_env. cbn.
  destruct (gorm_Open _ _ _) as [[gdb [e|]] e1]; cbn; [discriminate|].
  destruct (gorm_DB _ _) as [[sq [e|]] e2]; cbn; [discriminate|].
  destruct (sql_SetMaxIdleConns _ _ _) as [[] e3]; cbn.
  destruct (sql_SetMaxOpenConns _ _ _) as [[] e4]; cbn.
  destruct (sql_SetConnMaxLifetime _ _ _) as [[] e5]; cbn.
  intros [= <-]. repeat split.
Qed.

(** X14. The path the package is made for: a connection [New] returned
    without error, a repository made on it by [NewRepository], then method
    calls.  The repository reaches exactly the handle [gorm.Open] returned
    for the configuration, and still does after any run of method calls. *)
Theorem New_then_repository_is_live (cfg : Config) (s : State) (p : nat)
    (ty : gotype) (cs : list RepositoryCall) :
  fst (New cfg s) = Ret (Some p, None) ->
  let g := fst (fst (gorm_Open (postgres_Open (dsn_of cfg))
                       {| Logger := logger.Default_LogMode (LogLevel cfg) |}
                       (env s))) in
  let s1 := snd (New cfg s) in
  let s2 := snd (NewRepository ty (Some p) s1) in
  let r := length (repos s) in
  fst (NewRepository ty (Some p) s1) = Ret (Some r) /\
  repo_at s2 r ty g /\
  repo_at (invoke_all (Some r) cs s2) r ty g.
Proof.
  intros HNew g s1 s2 r.
  destruct (New_success _ _ _ HNew) as (-> & HR & HD). fold g in HD.
  assert (Hat : repo_at s2 r ty g).
  { exists (length (dbs s)). subst s2 s1 r. cbn. split.
    - rewrite HR. apply list_lookup_middle. reflexivity.
    - rewrite HD. apply list_lookup_middle. reflexivity. }
  split; [subst s1 r; cbn; now rewrite HR|].
  split; [exact Hat|].
  eapply repo_at_frame; [apply frame_invoke_all | exact Hat].
Qed.

End Robustness.

(** ** Call traces on the reference mapper *)

Section Traces.
Variable oracle : list ref.Event -> option error.
Let RM : Mapper := ref.mapper oracle.
Local Existing Instance RM.

(** One call, one mapper call: the one [event_of] names. *)
Lemma invoke_event (s : State) (r : nat) (ty : gotype) (g : ref.handle)
    (c : RepositoryCall) :
  repo_at s r ty g ->
  fst (invoke (Some r) c s) = Ret (oracle (ref.calls (env s) ++ [event_of g ty c])) /\
  ref.calls (env (snd (invoke (Some r) c s))) = ref.calls (env s) ++ [event_of g ty c].
Proof.
  intros Hr. destruct (r_db_eq _ _ _ _ Hr) as (d & Hd).
  destruct c as [model|id result|result|result query args|result query args
                |model|model|count query args|result page pageSize];
    cbn [invoke event_of];
    try (unfold FindByID, FindAll, FindWhere, FindOne, Paginate;
         cbn zeta; rewrite (bind_Ret _ _ _ _ _ Hd); split; reflexivity).
  1-3: unfold Create, Update, Delete; rewrite (bind_Ret _ _ _ _ _ Hd);
    (split; [reflexivity|]); cbn;
    destruct (oracle _); [reflexivity|];
    unfold ref.write; destruct (ref.h_tx g); reflexivity.
  unfold RM in *. rewrite (Count_ref oracle _ _ _ _ count query args Hr).
  split; reflexivity.
Qed.

(** X8. On a repository whose stored handle is a root handle, as [New]
    returns it, a run of method calls makes exactly one mapper call per
    method call, in order, and the i-th mapper call depends only on that
    handle, the type argument and the arguments of the i-th method call:
    nothing one call chains (a filter, an offset, a limit) is carried into
    the next. *)
Theorem run_of_calls_trace (cfg : Config) (s : State) (r : nat) (ty : gotype)
    (cs : list RepositoryCall) :
  repo_at s r ty (ref.opened cfg) ->
  ref.calls (env (invoke_all (Some r) cs s))
    = ref.calls (env s) ++ map (event_of (ref.opened cfg) ty) cs.
Proof.
  revert s. induction cs as [|c cs IH]; intros s Hr; cbn [invoke_all map].
  - symmetry. apply app_nil_r.
  - rewrite IH.
    + rewrite (proj2 (invoke_event s r ty (ref.opened cfg) c Hr)), <- app_assoc.
      reflexivity.
    + eapply repo_at_frame; [apply keeps_invoke | exact Hr].
Qed.

(** X7. [FindWhere] and [FindOne] chain the caller's filter whatever it
    is: unlike [Count], they do not test it against nil, so a nil filter
    reaches the mapper as a [Where] clause with the arguments. *)
Theorem Find_filter_unconditional (s : State) (r : nat) (ty : gotype)
    (g : ref.handle) (result : ptr) (query : value) (args : list value) :
  repo_at s r ty g ->
  let q := ref.chain g (ref.Where query args) in
  ref.h_clauses q = ref.h_clauses g ++ [ref.Where query args] /\
  ref.calls (env (snd (FindWhere (Some r) result query args s)))
    = ref.calls (env s) ++ [ref.EvFind q (vptr (TSlice ty) result) []] /\
  ref.calls (env (snd (FindOne (Some r) result query args s)))
    = ref.calls (env s) ++ [ref.EvFirst q (vptr ty result) []].
Proof.
  intros Hr q. split; [reflexivity|]. split.
  - exact (proj2 (invoke_event s r ty g (call_FindWhere result query args) Hr)).
  - exact (proj2 (invoke_event s r ty g (call_FindOne result query args) Hr)).
Qed.

(** X6. [Ping] and [Close] ask for the pool first and stop there when that
    fails: the probe (or the close) is made only after a successful lookup,
    and at most once. *)
Theorem Ping_Close_short_circuit (s : State) (d : nat) (g : ref.handle) :
  dbs s !! d = Some {| DB_DB := Some g |} ->
  let cs := ref.calls (env s) in
  ref.calls (env (snd (Ping (Some d) s)))
    = match oracle (cs ++ [ref.EvDB g]) with
      | Some _ => cs ++ [ref.EvDB g]
      | None => cs ++ [ref.EvDB g; ref.EvPing]
      end /\
  ref.calls (env (snd (Close (Some d) s)))
    = match oracle (cs ++ [ref.EvDB g]) with
      | Some _ => cs ++ [ref.EvDB g]
      | None => cs ++ [ref.EvDB g; ref.EvClose]
      end.
Proof.
  intros Hd cs. subst cs. split.
  - unfold Ping. rewrite (bind_Ret _ _ _ _ _ (load_DB_eq _ _ _ Hd)).
    cbn [embedded DB_DB]. unfold bind, ret, extern. cbn.
    destruct (oracle (ref.calls (env s) ++ [ref.EvDB g])); cbn;
      rewrite <- ?app_assoc; reflexivity.
  - unfold Close. rewrite (bind_Ret _ _ _ _ _ (load_DB_eq _ _ _ Hd)).
    cbn [embedded DB_DB]. unfold bind, ret, extern. cbn.
    destruct (oracle (ref.calls (env s) ++ [ref.EvDB g])); cbn;
      rewrite <- ?app_assoc; reflexivity.
Qed.

(** X4. [New] makes one, two or five mapper calls and no other: the open
    call alone when it fails; the open call and the pool lookup when the
    lookup fails; these two and the three pool settings when it succeeds.
    It never probes the connection, and it never closes the handle it
    opened, also when the pool lookup fails. *)
Theorem New_calls (cfg : Config) (s : State) :
  exists added,
    ref.calls (env (snd (New cfg s))) = ref.calls (env s) ++ added /\
    ~ In ref.EvPing added /\ ~ In ref.EvClose added /\
    match fst (New cfg s) with
    | Ret (None, Some _) =>
        added = [ref.open_event cfg] \/
        added = [ref.open_event cfg; ref.EvDB (ref.opened cfg)]
    | Ret (Some _, None) =>
        added = [ref.open_event cfg; ref.EvDB (ref.opened cfg);
                 ref.EvSetMaxIdleConns (MaxIdleConns cfg);
                 ref.EvSetMaxOpenConns (MaxOpenConns cfg);
                 ref.EvSetConnMaxLifetime time.Hour]
    | _ => False
    end.
Proof.
  pose proof (New_ref oracle cfg s) as E. cbn zeta in E.
  unfold RM in *. rewrite E. clear E. cbn [ref.log ref.calls].
  destruct (oracle _); cbn.
  { exists [ref.open_event cfg]. split; [reflexivity|].
    split; [|split; [|left; reflexivity]];
      intros [H|[]]; discriminate H. }
  destruct (oracle _); cbn.
  { exists [ref.open_event cfg; ref.EvDB (ref.opened cfg)].
    split; [rewrite <- app_assoc; reflexivity|].
    split; [|split; [|right; reflexivity]];
      intros [H|[H|[]]]; discriminate H. }
  eexists [_; _; _; _; _]. split; [rewrite <- !app_assoc; reflexivity|].
  split; [|split; [|reflexivity]];
    intros [H|[H|[H|[H|[H|[]]]]]]; discriminate H.
Qed.

End Traces.

(** ** Page arithmetic *)

(** X9. Pages tile the rows: for a page number at least 1 and a page size
    at least 0 whose product fits in [int], the offset [Paginate] asks for is
    the non-negative integer [(page-1)*pageSize], and the offset of the next
    page is this one plus the page size, so consecutive pages neither
    overlap nor leave a gap. *)
Theorem pages_tile (g : ref.handle) (ty : gotype) (result : ptr) (page pageSize : Z) :
  1 <= page -> 0 <= pageSize -> page * pageSize <= goint.max_int ->
  let start := (page - 1) * pageSize in
  let query o := ref.EvFind (ref.chain (ref.chain g (ref.Offset o)) (ref.Limit pageSize))
                            (vptr (TSlice ty) result) [] in
  0 <= start /\
  event_of g ty (call_Paginate result page pageSize) = query start /\
  event_of g ty (call_Paginate result (page + 1) pageSize) = query (start + pageSize).
Proof.
  intros Hp Hs Hfit start query.
  assert (Hmax : goint.max_int = 9223372036854775807) by reflexivity.
  assert (Hmin : goint.min_int = -9223372036854775808) by reflexivity.
  assert (H0 : 0 <= start) by (subst start; nia).
  split; [exact H0|]. subst query. cbn [event_of].
  rewrite !paginate_offset. split.
  - rewrite wrap_id; [reflexivity|]. unfold goint.in_range. fold start. nia.
  - rewrite wrap_id.
    + do 4 f_equal. subst start. ring.
    + unfold goint.in_range. nia.
Qed.

(** ** The connection string does not quote *)

Lemma append_inj_l (p x y : string) : p +:+ x = p +:+ y -> x = y.
Proof.
  induction p as [|c p IH]; intros H; [exact H|].
  change (String c (p +:+ x) = String c (p +:+ y)) in H.
  injection H as H. exact (IH H).
Qed.

(** Two strings free of spaces, each followed by a space: the first space
    is where both end. *)
Lemma split_at_space (a b r1 r2 : string) :
  has_space a = false -> has_space b = false ->
  a +:+ String " " r1 = b +:+ String " " r2 -> a = b /\ r1 = r2.
Proof.
  revert b. induction a as [|c a IH]; intros [|c' b] Ha Hb H.
  - change (String " " r1 = String " " r2) in H. injection H as H. now split.
  - change (String " " r1 = String c' (b +:+ String " " r2)) in H.
    injection H as Hc _. subst c'. discriminate Hb.
  - change (String c (a +:+ String " " r1) = String " " r2) in H.
    injection H as Hc _. subst c. discriminate Ha.
  - change (String c (a +:+ String " " r1) = String c' (b +:+ String " " r2)) in H.
    injection H as Hc H. subst c'.
    cbn in Ha, Hb. apply orb_false_iff in Ha, Hb.
    destruct (IH b (proj2 Ha) (proj2 Hb) H) as [-> ->]. now split.
Qed.

(** X10. The connection string keeps configurations apart as long as the
    values contain no space: if the six values that are followed by another
    pair are free of spaces in both configurations and the strings [New]
    builds are equal, then all seven fields are equal.  (Values are copied
    in without quoting, so with a space in one of them two configurations
    can give one string.) *)
Theorem dsn_of_injective (cfg1 cfg2 : Config) :
  values_without_space cfg1 -> values_without_space cfg2 ->
  dsn_of cfg1 = dsn_of cfg2 ->
  Host cfg1 = Host cfg2 /\ Port cfg1 = Port cfg2 /\ User cfg1 = User cfg2 /\
  Password cfg1 = Password cfg2 /\ DatabaseName cfg1 = DatabaseName cfg2 /\
  SSLMode cfg1 = SSLMode cfg2 /\ TimeZone cfg1 = TimeZone cfg2.
Proof.
  intros (A1 & A2 & A3 & A4 & A5 & A6) (B1 & B2 & B3 & B4 & B5 & B6) H.
  rewrite !dsn_of_spec in H.
  change ("host=" +:+ (Host cfg1 +:+ String " "
            ("port=" +:+ (Port cfg1 +:+ String " "
               ("user=" +:+ (User cfg1 +:+ String " "
                  ("password=" +:+ (Password cfg1 +:+ String " "
                     ("dbname=" +:+ (DatabaseName cfg1 +:+ String " "
                        ("sslmode=" +:+ (SSLMode cfg1 +:+ String " "
                           ("TimeZone=" +:+ TimeZone cfg1))))))))))))
          = "host=" +:+ (Host cfg2 +:+ String " "
            ("port=" +:+ (Port cfg2 +:+ String " "
               ("user=" +:+ (User cfg2 +:+ String " "
                  ("password=" +:+ (Password cfg2 +:+ String " "
                     ("dbname=" +:+ (DatabaseName cfg2 +:+ String " "
                        ("sslmode=" +:+ (SSLMode cfg2 +:+ String " "
                           ("TimeZone=" +:+ TimeZone cfg2))))))))))))) in H.
  apply append_inj_l, split_at_space in H; [|assumption..]. destruct H as [E1 H].
  apply append_inj_l, split_at_space in H; [|assumption..]. destruct H as [E2 H].
  apply append_inj_l, split_at_space in H; [|assumption..]. destruct H as [E3 H].
  apply append_inj_l, split_at_space in H; [|assumption..]. destruct H as [E4 H].
  apply append_inj_l, split_at_space in H; [|assumption..]. destruct H as [E5 H].
  apply append_inj_l, split_at_space in H; [|assumption..]. destruct H as [E6 H].
  apply append_inj_l in H. repeat split; assumption.
Qed.

(** Without the condition: a space in the host moves the boundary. *)
Example dsn_of_not_quoted :
  let cfg1 := {| Host := "a port=b"; Port := "c"; User := "u"; Password := "p";
                 DatabaseName := "d"; SSLMode := "disable"; TimeZone := "UTC";
                 MaxIdleConns := 10; MaxOpenConns := 100;
                 LogLevel := logger.Silent |} in
  let cfg2 := {| Host := "a"; Port := "b port=c"; User := "u"; Password := "p";
                 DatabaseName := "d"; SSLMode := "disable"; TimeZone := "UTC";
                 MaxIdleConns := 10; MaxOpenConns := 100;
                 LogLevel := logger.Silent |} in
  dsn_of cfg1 = dsn_of cfg2 /\ Host cfg1 <> Host cfg2.
Proof. split; [vm_compute; reflexivity | vm_compute; discriminate]. Qed.

(** ** Instances of the further properties *)

Lemma live_repository_stays_live_witness :
  let M := ref.mapper ref.all_ok in
  let s' := @invoke_all M (Some 0%nat)
              [call_Count (Some 7%nat) (vstring "status = ?") [vstring "active"];
               call_Paginate (Some 3%nat) 0 10]
              (one_repo ref.all_ok) in
  @repo_at M (one_repo ref.all_ok) 0 (TEntity "User") (ref.opened DefaultConfig) /\
  @repo_at M s' 0 (TEntity "User") (ref.opened DefaultConfig).
Proof.
  cbv zeta. split; [exact (one_repo_at ref.all_ok)|].
  pose proof (@live_repository_stays_live (ref.mapper ref.all_ok)
                (one_repo ref.all_ok) 0 (TEntity "User") (ref.opened DefaultConfig)
                (Some 0%nat)
                [call_Count (Some 7%nat) (vstring "status = ?") [vstring "active"];
                 call_Paginate (Some 3%nat) 0 10]
                (one_repo_at ref.all_ok)) as H.
  cbv zeta in H. exact (proj1 H).
Defined.

Lemma only_filtered_Count_allocates_witness :
  @repo_at (ref.mapper ref.all_ok) (one_repo ref.all_ok) 0 (TEntity "User")
           (ref.opened DefaultConfig) /\
  allocates (call_Count (Some 7%nat) (vstring "status = ?") [vstring "active"]) = true /\
  exists w,
    dbs (snd (@invoke (ref.mapper ref.all_ok) (Some 0%nat)
                (call_Count (Some 7%nat) (vstring "status = ?") [vstring "active"])
                (one_repo ref.all_ok)))
    = dbs (one_repo ref.all_ok) ++ [@Build_DB (ref.mapper ref.all_ok) (Some w)].
Proof.
  split; [exact (one_repo_at ref.all_ok)|]. split; [reflexivity|].
  exact (proj2 (@only_filtered_Count_allocates (ref.mapper ref.all_ok)
                  (one_repo ref.all_ok) 0 (TEntity "User") (ref.opened DefaultConfig)
                  (call_Count (Some 7%nat) (vstring "status = ?") [vstring "active"])
                  (one_repo_at ref.all_ok)) eq_refl).
Defined.

Lemma repositories_share_db_witness :
  let M := ref.mapper ref.all_ok in
  let s := one_repo ref.all_ok in
  dbs s !! 0%nat = Some (@Build_DB M (Some (ref.opened DefaultConfig))) /\
  @repo_at M
    (snd (@NewRepository M (TEntity "Task") (Some 0%nat)
            (snd (@NewRepository M (TEntity "User") (Some 0%nat) s))))
    2 (TEntity "Task") (ref.opened DefaultConfig).
Proof.
  cbv zeta. split; [reflexivity|].
  pose proof (@repositories_share_db (ref.mapper ref.all_ok) (one_repo ref.all_ok) 0
                (ref.opened DefaultConfig) (TEntity "User") (TEntity "Task") eq_refl)
    as H.
  cbv zeta in H. exact (proj1 (proj2 (proj2 (proj2 H)))).
Defined.

Lemma Close_then_Ping_witness :
  let M := ref.mapper ref.all_ok in
  let s := one_repo ref.all_ok in
  dbs s !! 0%nat = Some (@Build_DB M (Some (ref.opened DefaultConfig))) /\
  dbs (snd (@Close M (Some 0%nat) s)) !! 0%nat
    = Some (@Build_DB M (Some (ref.opened DefaultConfig))).
Proof.
  cbv zeta. split; [reflexivity|].
  pose proof (@Close_then_Ping (ref.mapper ref.all_ok) (one_repo ref.all_ok) 0
                (ref.opened DefaultConfig) eq_refl) as H.
  cbv zeta in H. exact (proj1 H).
Defined.

(** A filtered query followed by an unfiltered one: the second carries no
    filter. *)
Lemma run_of_calls_trace_witness :
  @repo_at (ref.mapper ref.all_ok) (one_repo ref.all_ok) 0 (TEntity "User")
           (ref.opened DefaultConfig) /\
  ref.calls (env (@invoke_all (ref.mapper ref.all_ok) (Some 0%nat)
                    [call_FindWhere (Some 3%nat) (vstring "status = ?") [vstring "active"];
                     call_FindAll (Some 3%nat)]
                    (one_repo ref.all_ok)))
  = [ref.EvFind (ref.chain (ref.opened DefaultConfig)
                           (ref.Where (vstring "status = ?") [vstring "active"]))
                (vptr (TSlice (TEntity "User")) (Some 3%nat)) [];
     ref.EvFind (ref.opened DefaultConfig)
                (vptr (TSlice (TEntity "User")) (Some 3%nat)) []].
Proof.
  split; [exact (one_repo_at ref.all_ok)|].
  exact (run_of_calls_trace ref.all_ok DefaultConfig (one_repo ref.all_ok) 0
           (TEntity "User") _ (one_repo_at ref.all_ok)).
Defined.

Lemma Find_filter_unconditional_witness :
  @repo_at (ref.mapper ref.all_ok) (one_repo ref.all_ok) 0 (TEntity "User")
           (ref.opened DefaultConfig) /\
  ref.calls (env (snd (@FindWhere (ref.mapper ref.all_ok) (Some 0%nat) (Some 3%nat)
                         vnil [vstring "active"] (one_repo ref.all_ok))))
  = [ref.EvFind (ref.chain (ref.opened DefaultConfig)
                           (ref.Where vnil [vstring "active"]))
                (vptr (TSlice (TEntity "User")) (Some 3%nat)) []].
Proof.
  split; [exact (one_repo_at ref.all_ok)|].
  pose proof (Find_filter_unconditional ref.all_ok (one_repo ref.all_ok) 0
                (TEntity "User") (ref.opened DefaultConfig) (Some 3%nat) vnil
                [vstring "active"] (one_repo_at ref.all_ok)) as H.
  cbv zeta in H. exact (proj1 (proj2 H)).
Defined.

Lemma Ping_Close_short_circuit_witness :
  let oracle := ref.fail_at 0 (errorString "sql: database is closed") in
  dbs (one_repo oracle) !! 0%nat
    = Some (@Build_DB (ref.mapper oracle) (Some (ref.opened DefaultConfig))) /\
  ref.calls (env (snd (@Ping (ref.mapper oracle) (Some 0%nat) (one_repo oracle))))
    = [ref.EvDB (ref.opened DefaultConfig)].
Proof.
  cbv zeta. split; [reflexivity|].
  pose proof (Ping_Close_short_circuit
                (ref.fail_at 0 (errorString "sql: database is closed"))
                (one_repo _) 0 (ref.opened DefaultConfig) eq_refl) as H.
  cbv zeta in H. exact (proj1 H).
Defined.

Lemma pages_tile_witness :
  1 <= 3 /\ 0 <= 10 /\ 3 * 10 <= goint.max_int /\
  event_of (ref.opened DefaultConfig) (TEntity "User") (call_Paginate None 4 10)
  = ref.EvFind (ref.chain (ref.chain (ref.opened DefaultConfig) (ref.Offset 30))
                          (ref.Limit 10))
               (vptr (TSlice (TEntity "User")) None) [].
Proof.
  assert (H1 : 1 <= 3) by lia. assert (H2 : 0 <= 10) by lia.
  assert (H3 : 3 * 10 <= goint.max_int) by (vm_compute; discriminate).
  pose proof (pages_tile (ref.opened DefaultConfig) (TEntity "User") None 3 10
                H1 H2 H3) as H.
  cbv zeta in H. repeat (split; [assumption|]). exact (proj2 (proj2 H)).
Defined.

Lemma dsn_of_injective_witness :
  values_without_space DefaultConfig /\
  Host DefaultConfig = Host DefaultConfig /\ TimeZone DefaultConfig = TimeZone DefaultConfig.
Proof.
  assert (V : values_without_space DefaultConfig) by (repeat split).
  split; [exact V|].
  pose proof (dsn_of_injective DefaultConfig DefaultConfig V V eq_refl) as H.
  split; [exact (proj1 H) | exact (proj2 (proj2 (proj2 (proj2 (proj2 (proj2 H))))))].
Defined.

Lemma New_then_repository_is_live_witness :
  let M := ref.mapper ref.all_ok in
  let s2 := snd (@NewRepository M (TEntity "User") (Some 0%nat)
                   (snd (@New M DefaultConfig (ref.init ref.all_ok)))) in
  fst (@New M DefaultConfig (ref.init ref.all_ok)) = Ret (Some 0%nat, None) /\
  @repo_at M
    (@invoke_all M (Some 0%nat)
       [call_Create (Some 1%nat); call_Paginate (Some 3%nat) 1 10] s2)
    0 (TEntity "User") (ref.opened DefaultConfig).
Proof.
  cbv zeta. split; [reflexivity|].
  pose proof (@New_then_repository_is_live (ref.mapper ref.all_ok) DefaultConfig
                (ref.init ref.all_ok) 0 (TEntity "User")
                [call_Create (Some 1%nat); call_Paginate (Some 3%nat) 1 10]
                eq_refl) as H.
  cbv zeta in H. exact (proj2 (proj2 H)).
Defined.
